(** * Poultry Health Dashboard: the disease-detection handler

    A shallow embedding of [handleDetectDisease] and [handleImageChange]
    (the [App] component of the dashboard) and of the JavaScript values
    they inspect, followed by the properties of the detection pipeline.

    Conventions of the embedding:
    - a value obtained from [JSON.parse] is a [json]; a JavaScript value
      that may also be [undefined] is an [option json] ([None] is
      [undefined]);
    - a number is an IEEE 754 binary64 value, Rocq's primitive [float];
    - a string is a [string]: the text in an encoding that keeps ASCII
      characters as single characters (UTF-8), on which the host's
      functions ([JSON.parse], [toLowerCase]) work; the handler itself
      only concatenates strings, splits one at a comma and compares with
      the empty string and with "chicken";
    - the React state of the component is the record [UI]; calls to the
      file reader and to [fetch] are recorded in a trace;
    - an [await] receives what the collaborator answers: a value or a
      rejection ([thrown]);
    - built-ins whose text is fixed by the host ([JSON.parse],
      [JSON.stringify], the wording of a [TypeError], ...) are the fields
      of a [Platform]. *)

From Stdlib Require Import ZArith QArith Qround Qabs Lqa String Ascii List Bool Lia Floats.
From Stdlib Require Import DecimalString.
Import ListNotations.

Set Warnings "-inexact-float,-register-all".

Local Open Scope string_scope.
Local Open Scope Z_scope.

(** ** Values *)

Module JS.

(** What [JSON.parse] can return. An object keeps its properties in
    order; [get_own] reads the first one of a given name. *)
Inductive json : Type :=
| JNull
| JBool (b : bool)
| JNum (x : float)
| JStr (s : string)
| JArr (items : list json)
| JObj (props : list (string * json)).

(** A JavaScript value as the handler sees it: [None] is [undefined]. *)
Definition value := option json.

Inductive error_kind := PlainError | TypeError | SyntaxError | OtherError.

(** What a [throw] or a rejected promise carries. [ErrorObject] is an
    instance of [Error] with its [message]; [NoMessage] is an object
    without a [message] property, such as the [ProgressEvent] a
    [FileReader] hands to [onerror]. *)
Inductive thrown :=
| ErrorObject (kind : error_kind) (message : string)
| NoMessage.

(** The text of [`${error.message}`]. *)
Definition message_text (e : thrown) : string :=
  match e with
  | ErrorObject _ m => m
  | NoMessage => "undefined"
  end.

(** [ToBoolean]. *)
Definition truthy (v : value) : bool :=
  match v with
  | None => false
  | Some JNull => false
  | Some (JBool b) => b
  | Some (JNum x) => negb (PrimFloat.is_zero x || PrimFloat.is_nan x)
  | Some (JStr s) => negb (s =? "")%string
  | Some (JArr _) => true
  | Some (JObj _) => true
  end.

(** [typeof v === 'number']. *)
Definition typeof_number (v : value) : bool :=
  match v with
  | Some (JNum _) => true
  | _ => false
  end.

(** [Array.isArray(v)]. *)
Definition isArray (v : value) : bool :=
  match v with
  | Some (JArr _) => true
  | _ => false
  end.

Fixpoint get_own (props : list (string * json)) (k : string) : value :=
  match props with
  | [] => None
  | (k', v) :: rest => if (k' =? k)%string then Some v else get_own rest k
  end.

(** Lower-casing of the letters A to Z, every other character kept:
    what [String.prototype.toLowerCase] does on ASCII text. The handler
    itself calls the host's [toLowerCase] (a field of [Platform]); this
    function only serves the test doubles. *)
Definition lower_ascii (c : ascii) : ascii :=
  let n := nat_of_ascii c in
  if ((65 <=? n) && (n <=? 90))%nat then ascii_of_nat (n + 32) else c.

Fixpoint ascii_lower (s : string) : string :=
  match s with
  | EmptyString => EmptyString
  | String c rest => String (lower_ascii c) (ascii_lower rest)
  end.

(** [s.split(sep)] for a one-character separator. *)
Fixpoint split_acc (sep : ascii) (cur : string) (s : string) : list string :=
  match s with
  | EmptyString => [cur]
  | String c rest =>
      if Ascii.eqb c sep then cur :: split_acc sep EmptyString rest
      else split_acc sep (cur ++ String c EmptyString) rest
  end.

Definition split (sep : ascii) (s : string) : list string :=
  split_acc sep EmptyString s.

(** [n] copies of a character. *)
Fixpoint repeat_char (c : ascii) (n : nat) : string :=
  match n with
  | O => EmptyString
  | S k => String c (repeat_char c k)
  end.

(** The decimal digits of a natural number, no leading zero ("0" for 0). *)
Definition digits (n : Z) : string :=
  NilZero.string_of_uint (N.to_uint (Z.to_N n)).

(** The exact value of a finite double. *)
Definition pow2 (e : Z) : Q :=
  if 0 <=? e then inject_Z (2 ^ e) else / inject_Z (2 ^ (- e)).

Definition real_of (x : float) : option Q :=
  match Prim2SF x with
  | S754_zero _ => Some 0%Q
  | S754_finite s m e =>
      let mag := (inject_Z (Z.pos m) * pow2 e)%Q in
      Some (if s then (- mag)%Q else mag)
  | S754_infinity _ => None
  | S754_nan => None
  end.

(** [Number::toString] of a value that is not finite. *)
Definition nonfinite_text (x : float) : string :=
  if PrimFloat.is_nan x then "NaN"
  else if PrimFloat.ltb x 0%float then "-Infinity" else "Infinity".

(** Steps 10.a to 10.c of [Number.prototype.toFixed]: the integer [n]
    nearest to [x * 10^f] (the larger one on a tie), written with [f]
    digits after the point. *)
Definition nearest (x : Q) (f : nat) : Z :=
  Qfloor (x * inject_Z (10 ^ Z.of_nat f) + (1 # 2))%Q.

Definition fixed_text (n : Z) (f : nat) : string :=
  let m := digits n in
  match f with
  | O => m
  | _ =>
      let k := String.length m in
      let m' := if (k <=? f)%nat then repeat_char "0" (f + 1 - k) ++ m else m in
      let k' := if (k <=? f)%nat then (f + 1)%nat else k in
      substring 0 (k' - f) m' ++ "." ++ substring (k' - f) f m'
  end.

(** Step 8 of [toFixed]: ["-"] and the opposite for a negative value. *)
Definition sign_text (r : Q) : string :=
  if Qlt_le_dec r 0 then "-" else "".

Definition magnitude (r : Q) : Q :=
  if Qlt_le_dec r 0 then (- r)%Q else r.

Section ToFixed.
(** [Number::toString] of a finite value of magnitude at least 10^21
    (the shortest digits that read back as the value): host-defined. *)
Variable Number_toString : float -> string.

(** [x.toFixed(f)] for [0 <= f <= 100]: a value that is not finite is
    printed by [Number::toString]; otherwise the sign is set apart and
    the magnitude is printed in fixed notation when it is below 10^21. *)
Definition toFixed (x : float) (f : nat) : string :=
  match real_of x with
  | None => nonfinite_text x
  | Some r =>
      if Qlt_le_dec (magnitude r) (inject_Z (10 ^ 21))
      then sign_text r ++ fixed_text (nearest (magnitude r) f) f
      else sign_text r ++ Number_toString (PrimFloat.abs x)
  end.
End ToFixed.

End JS.

Import JS.

(** ** The host and the collaborators *)

(** A [File]: its name, its declared media type and its bytes. *)
Record File := {
  file_name : string;
  file_type : string;
  file_bytes : list Byte.byte
}.

(** Built-ins of the JavaScript host that the handler calls. *)
Record Platform := {
  (** [JSON.parse(text)]: the value, or the [SyntaxError] it throws. *)
  JSON_parse : string -> thrown + json;
  (** [JSON.stringify(v, null, space)]; [space = 0] is [JSON.stringify(v)]. *)
  JSON_stringify : json -> nat -> string;
  (** [Number::toString] of a finite number of magnitude at least 10^21. *)
  Number_toString : float -> string;
  (** [String.prototype.toLowerCase]: the Unicode lower-casing of a
      string. *)
  toLowerCase : string -> string;
  (** Message of the [TypeError] raised by reading property [k] of
      [null] or [undefined]. *)
  cannot_read : string -> string;
  (** Message of the [TypeError] raised by calling [v.k] when it is not
      a function. *)
  not_a_function : string -> string;
  (** [URL.createObjectURL(file)]. *)
  createObjectURL : File -> string
}.

(** A [Response] of [fetch]: the status line and what reading the body
    gives ([response.text()]; [response.json()] parses that text). *)
Record Response := {
  status : Z;
  body : thrown + string
}.

(** [response.ok]: the status is in the range 200 to 299. *)
Definition ok (r : Response) : bool :=
  (200 <=? status r) && (status r <=? 299).

(** What the collaborators answer during one invocation. *)
Record Collaborators := {
  (** [FileReader.readAsDataURL]: [reader.result] on [onload], or the
      event given to [onerror]. *)
  readAsDataURL : File -> thrown + string;
  (** [fetch(url, {method: 'POST', headers, body})], by [url] and [body]. *)
  fetch : string -> string -> thrown + Response
}.

(** ** The component's state and its effects *)

Record UI := {
  selectedImage : option File;
  imagePreviewUrl : string;
  detectionResult : string;
  rawApiResponse : string;
  isLoading : bool;
  errorMessage : string
}.

Inductive Effect :=
| FileRead (f : File)
| NetworkCall (url : string) (method : string)
              (headers : list (string * string)) (request_body : string).

Record World := {
  ui : UI;
  trace : list Effect
}.

(** A computation of the handler: it may update the state and extend
    the trace, and it ends with a value or with a thrown object. State
    written before a [throw] stays written. *)
Definition M (A : Type) : Type := World -> (thrown + A) * World.

Definition ret {A} (a : A) : M A := fun w => (inr a, w).

Definition bind {A B} (c : M A) (k : A -> M B) : M B :=
  fun w =>
    match c w with
    | (inl e, w') => (inl e, w')
    | (inr a, w') => k a w'
    end.

Definition throw {A} (e : thrown) : M A := fun w => (inl e, w).

(** A pure expression that may throw. *)
Definition lift {A} (r : thrown + A) : M A := fun w => (r, w).

Declare Scope js_scope.
Delimit Scope js_scope with js.
Notation "x <- c ;; k" := (bind c (fun x => k))
  (at level 61, c at next level, right associativity) : js_scope.
Notation "c ;; k" := (bind c (fun _ => k))
  (at level 61, right associativity) : js_scope.
Local Open Scope js_scope.

(** [try { body } catch (error) { handler } finally { fin }]. *)
Definition try_catch_finally (body : M unit) (handler : thrown -> M unit)
    (fin : M unit) : M unit :=
  fun w =>
    let (r1, w1) := body w in
    let (r2, w2) :=
      match r1 with
      | inl e => handler e w1
      | inr u => (inr u, w1)
      end in
    let (r3, w3) := fin w2 in
    match r3 with
    | inl e => (inl e, w3)
    | inr _ => (r2, w3)
    end.

(** [try { body } catch (e) { handler }]. *)
Definition try_catch (body : M unit) (handler : thrown -> M unit) : M unit :=
  fun w =>
    match body w with
    | (inl e, w1) => handler e w1
    | (inr u, w1) => (inr u, w1)
    end.

Definition update (f : UI -> UI) : M unit :=
  fun w => (inr tt, {| ui := f (ui w); trace := trace w |}).

Definition emit (e : Effect) : M unit :=
  fun w => (inr tt, {| ui := ui w; trace := trace w ++ [e] |}).

(** The state with one variable replaced. *)
Definition with_selectedImage (v : option File) (s : UI) : UI :=
  {| selectedImage := v; imagePreviewUrl := imagePreviewUrl s;
     detectionResult := detectionResult s; rawApiResponse := rawApiResponse s;
     isLoading := isLoading s; errorMessage := errorMessage s |}.

Definition with_imagePreviewUrl (v : string) (s : UI) : UI :=
  {| selectedImage := selectedImage s; imagePreviewUrl := v;
     detectionResult := detectionResult s; rawApiResponse := rawApiResponse s;
     isLoading := isLoading s; errorMessage := errorMessage s |}.

Definition with_detectionResult (v : string) (s : UI) : UI :=
  {| selectedImage := selectedImage s; imagePreviewUrl := imagePreviewUrl s;
     detectionResult := v; rawApiResponse := rawApiResponse s;
     isLoading := isLoading s; errorMessage := errorMessage s |}.

Definition with_rawApiResponse (v : string) (s : UI) : UI :=
  {| selectedImage := selectedImage s; imagePreviewUrl := imagePreviewUrl s;
     detectionResult := detectionResult s; rawApiResponse := v;
     isLoading := isLoading s; errorMessage := errorMessage s |}.

Definition with_isLoading (v : bool) (s : UI) : UI :=
  {| selectedImage := selectedImage s; imagePreviewUrl := imagePreviewUrl s;
     detectionResult := detectionResult s; rawApiResponse := rawApiResponse s;
     isLoading := v; errorMessage := errorMessage s |}.

Definition with_errorMessage (v : string) (s : UI) : UI :=
  {| selectedImage := selectedImage s; imagePreviewUrl := imagePreviewUrl s;
     detectionResult := detectionResult s; rawApiResponse := rawApiResponse s;
     isLoading := isLoading s; errorMessage := v |}.

(** The state setters returned by [useState]. *)
Definition setSelectedImage (v : option File) : M unit := update (with_selectedImage v).
Definition setImagePreviewUrl (v : string) : M unit := update (with_imagePreviewUrl v).
Definition setDetectionResult (v : string) : M unit := update (with_detectionResult v).
Definition setRawApiResponse (v : string) : M unit := update (with_rawApiResponse v).
Definition setIsLoading (v : bool) : M unit := update (with_isLoading v).
Definition setErrorMessage (v : string) : M unit := update (with_errorMessage v).

(** The state of a freshly mounted component ([useState] defaults). *)
Definition initial_ui : UI :=
  {| selectedImage := None; imagePreviewUrl := ""; detectionResult := "";
     rawApiResponse := ""; isLoading := false; errorMessage := "" |}.

(** Sequencing of pure expressions that may throw. *)
Definition bindE {A B} (r : thrown + A) (k : A -> thrown + B) : thrown + B :=
  match r with
  | inl e => inl e
  | inr a => k a
  end.

Notation "x <~ r ;; k" := (bindE r (fun x => k))
  (at level 61, r at next level, right associativity) : js_scope.

(** ** The component *)

Section App.
Variable P : Platform.

Definition ROBOTFLOW_API_KEY : string := "77URwEVgvgWzOu2ft6CF".
Definition ROBOTFLOW_WORKFLOW_ENDPOINT : string :=
  "https://serverless.roboflow.com/infer/workflows/poultrydetection-ptwgp/detect-and-classify-2".

(** [v.k], for the property names the handler reads ([outputs],
    [model_predictions], [predictions], [class], [confidence]): none of
    them is a property of an array, a string, a number or a boolean, so
    only an object can have it; reading it from [null] or [undefined]
    throws. *)
Definition get (v : value) (k : string) : thrown + value :=
  match v with
  | None => inl (ErrorObject TypeError (cannot_read P k))
  | Some JNull => inl (ErrorObject TypeError (cannot_read P k))
  | Some (JObj props) => inr (get_own props k)
  | Some _ => inr None
  end.

(** The elements of an array ([[]] for anything else). *)
Definition elements (v : value) : list json :=
  match v with
  | Some (JArr items) => items
  | _ => []
  end.

(** [v[0]]. *)
Definition index0 (v : value) : value :=
  match elements v with
  | x :: _ => Some x
  | [] => None
  end.

Definition number_text (n : Z) : string :=
  NilZero.string_of_int (Z.to_int n).

(** [handleImageChange(event)], with [file = event.target.files[0]]. *)
Definition handleImageChange (file : option File) : M unit :=
  match file with
  | Some f =>
      setSelectedImage (Some f) ;;
      setImagePreviewUrl (createObjectURL P f) ;;
      setDetectionResult "" ;;
      setRawApiResponse "" ;;
      setErrorMessage ""
  | None =>
      setSelectedImage None ;;
      setImagePreviewUrl "" ;;
      setDetectionResult "" ;;
      setRawApiResponse "" ;;
      setErrorMessage ""
  end.

(** [fileToBase64(file)]: the promise resolves with
    [reader.result.split(',')[1]] ([undefined] when the result has no
    comma) or rejects with the reader's error event. *)
Definition fileToBase64 (C : Collaborators) (file : File) : M (option string) :=
  emit (FileRead file) ;;
  match readAsDataURL C file with
  | inl error => throw error
  | inr result => ret (nth_error (split "," result) 1)
  end.

(** The object literal [requestBody]; [JSON.stringify] leaves out a
    property whose value is [undefined]. *)
Definition requestBody (base64Image : option string) : json :=
  JObj [ ("api_key", JStr ROBOTFLOW_API_KEY);
         ("inputs",
          JObj [ ("image",
                  JObj (("type", JStr "base64")
                        :: match base64Image with
                           | Some b => [("value", JStr b)]
                           | None => []
                           end)) ]) ].

(** The branch [if (!response.ok) { ... }]: it always throws. *)
Definition status_failure (response : Response) : M unit :=
  errorText <- lift (body response) ;;
  try_catch
    (parsed <- lift (JSON_parse P errorText) ;;
     setRawApiResponse (JSON_stringify P parsed 2))
    (fun _ => setRawApiResponse errorText) ;;
  if status response =? 401 then
    throw (ErrorObject PlainError
             "API error: 401 Unauthorized. Check API key/workflow access.")
  else if status response =? 403 then
    throw (ErrorObject PlainError
             "API error: 403 Forbidden. Insufficient permissions/workflow not public.")
  else if status response =? 422 then
    throw (ErrorObject PlainError
             "API error: 422 Unprocessable Entity. Request body structure incorrect.")
  else
    throw (ErrorObject PlainError
             ("API error: " ++ number_text (status response) ++ " - " ++ errorText)).

(** [response.json()]. *)
Definition response_json (response : Response) : thrown + json :=
  text <~ body response ;;
  JSON_parse P text.

(** The guard of the loop body:
    [output.model_predictions && output.model_predictions.predictions
     && Array.isArray(output.model_predictions.predictions)
     && output.model_predictions.predictions.length > 0]. *)
Definition has_predictions (output : json) : thrown + bool :=
  mp <~ get (Some output) "model_predictions" ;;
  if truthy mp then
    ps <~ get mp "predictions" ;;
    inr (truthy ps && isArray ps && (0 <? length (elements ps))%nat)
  else inr false.

(** [output.model_predictions.predictions[0]]. *)
Definition first_prediction (output : json) : thrown + value :=
  mp <~ get (Some output) "model_predictions" ;;
  ps <~ get mp "predictions" ;;
  inr (index0 ps).

(** The acceptance test
    [topPrediction.class && typeof topPrediction.confidence === 'number'
     && topPrediction.class.toLowerCase() !== 'chicken'],
    returning the class and the confidence it accepts. Calling
    [toLowerCase] on a class that is not a string throws. *)
Definition accepted (topPrediction : value) : thrown + option (string * float) :=
  cls <~ get topPrediction "class" ;;
  if truthy cls then
    conf <~ get topPrediction "confidence" ;;
    match conf with
    | Some (JNum c) =>
        match cls with
        | Some (JStr s) =>
            if negb (toLowerCase P s =? "chicken")%string
            then inr (Some (s, c)) else inr None
        | _ => inl (ErrorObject TypeError (not_a_function P "toLowerCase"))
        end
    | _ => inr None
    end
  else inr None.

Definition detected_message (predictedClass confidence : string) : string :=
  "Detected: " ++ predictedClass ++ " (Confidence: " ++ confidence ++ "%)".

Definition no_prediction_message : string :=
  "No clear disease classification prediction found. The model might not have detected a known disease or output structure is unexpected.".

(** [for (const output of data.outputs) { ... }]; the result is
    [foundPrediction]. *)
Fixpoint for_outputs (outputs : list json) : M bool :=
  match outputs with
  | [] => ret false
  | output :: rest =>
      guard <- lift (has_predictions output) ;;
      if guard : bool then
        topPrediction <- lift (first_prediction output) ;;
        top <- lift (accepted topPrediction) ;;
        match top with
        | Some (predictedClass, c) =>
            let confidence :=
              toFixed (Number_toString P) (PrimFloat.mul c 100%float) 2 in
            setDetectionResult (detected_message predictedClass confidence) ;;
            ret true
        | None => for_outputs rest
        end
      else for_outputs rest
  end.

(** The end of the [try] block, from [setRawApiResponse] on, once
    [data] has been received. *)
Definition interpret (data : json) : M unit :=
  setRawApiResponse (JSON_stringify P data 2) ;;
  outputs <- lift (get (Some data) "outputs") ;;
  foundPrediction <-
    (if truthy outputs && isArray outputs
     then for_outputs (elements outputs) else ret false) ;;
  if negb foundPrediction
  then setDetectionResult no_prediction_message
  else ret tt.

(** The text sent as the body of the request. *)
Definition request_text (base64Image : option string) : string :=
  JSON_stringify P (requestBody base64Image) 0.

(** The body of the [try] block. *)
Definition detect_body (C : Collaborators) (image : File) : M unit :=
  base64Image <- fileToBase64 C image ;;
  emit (NetworkCall ROBOTFLOW_WORKFLOW_ENDPOINT "POST"
          [("Content-Type", "application/json")]
          (request_text base64Image)) ;;
  response <- lift (fetch C ROBOTFLOW_WORKFLOW_ENDPOINT
                      (request_text base64Image)) ;;
  (if negb (ok response) then status_failure response else ret tt) ;;
  data <- lift (response_json response) ;;
  interpret data.

Definition select_image_message : string := "Please select an image first.".

Definition failure_message (error : thrown) : string :=
  "Failed to detect disease: " ++ message_text error ++ ".".

(** [handleDetectDisease()]. [selectedImage] is the state the handler
    closes over when it is invoked. Output to the console is left out. *)
Definition handleDetectDisease (C : Collaborators) : M unit :=
  fun w =>
    match selectedImage (ui w) with
    | None => setErrorMessage select_image_message w
    | Some image =>
        (setIsLoading true ;;
         setErrorMessage "" ;;
         setDetectionResult "" ;;
         setRawApiResponse "" ;;
         try_catch_finally
           (detect_body C image)
           (fun error => setErrorMessage (failure_message error))
           (setIsLoading false)) w
    end.

End App.

(** ** What the handler computes, without the state *)

Section Analysis.
Variable P : Platform.

(** The loop of [for_outputs] as a function: the entry it accepts, if
    any, or what it throws. *)
Fixpoint search (outputs : list json) : thrown + option (string * float) :=
  match outputs with
  | [] => inr None
  | output :: rest =>
      guard <~ has_predictions P output ;;
      if guard : bool then
        topPrediction <~ first_prediction P output ;;
        top <~ accepted P topPrediction ;;
        match top with
        | Some found => inr (Some found)
        | None => search rest
        end
      else search rest
  end.

(** The search over [data.outputs]. *)
Definition scan (data : json) : thrown + option (string * float) :=
  outputs <~ get P (Some data) "outputs" ;;
  if truthy outputs && isArray outputs
  then search (elements outputs) else inr None.

Definition confidence_text (c : float) : string :=
  toFixed (Number_toString P) (PrimFloat.mul c 100%float) 2.

(** The error thrown for a response whose status is not a success. *)
Definition status_error (response : Response) (errorText : string) : thrown :=
  if status response =? 401 then
    ErrorObject PlainError
      "API error: 401 Unauthorized. Check API key/workflow access."
  else if status response =? 403 then
    ErrorObject PlainError
      "API error: 403 Forbidden. Insufficient permissions/workflow not public."
  else if status response =? 422 then
    ErrorObject PlainError
      "API error: 422 Unprocessable Entity. Request body structure incorrect."
  else
    ErrorObject PlainError
      ("API error: " ++ number_text (status response) ++ " - " ++ errorText).

(** The text kept for a failure body: pretty-printed when it parses. *)
Definition diagnostic (errorText : string) : string :=
  match JSON_parse P errorText with
  | inr parsed => JSON_stringify P parsed 2
  | inl _ => errorText
  end.

(** What one run of the [try] block leaves: the object it threw, the
    last text given to [setRawApiResponse] and the last text given to
    [setDetectionResult]. *)
Record Summary := {
  threw : option thrown;
  raw_written : option string;
  result_written : option string
}.

Definition interpreted (data : json) : Summary :=
  match scan data with
  | inl e =>
      {| threw := Some e; raw_written := Some (JSON_stringify P data 2);
         result_written := None |}
  | inr None =>
      {| threw := None; raw_written := Some (JSON_stringify P data 2);
         result_written := Some no_prediction_message |}
  | inr (Some (cls, c)) =>
      {| threw := None; raw_written := Some (JSON_stringify P data 2);
         result_written := Some (detected_message cls (confidence_text c)) |}
  end.

Definition failed (e : thrown) : Summary :=
  {| threw := Some e; raw_written := None; result_written := None |}.

Definition base64_of (result : string) : option string :=
  nth_error (split "," result) 1.

Definition summary (C : Collaborators) (image : File) : Summary :=
  match readAsDataURL C image with
  | inl e => failed e
  | inr result =>
      match fetch C ROBOTFLOW_WORKFLOW_ENDPOINT
              (request_text P (base64_of result)) with
      | inl e => failed e
      | inr response =>
          if negb (ok response) then
            match body response with
            | inl e => failed e
            | inr errorText =>
                {| threw := Some (status_error response errorText);
                   raw_written := Some (diagnostic errorText);
                   result_written := None |}
            end
          else
            match response_json P response with
            | inl e => failed e
            | inr data => interpreted data
            end
      end
  end.

(** The effects of one run of the [try] block. *)
Definition effects (C : Collaborators) (image : File) : list Effect :=
  FileRead image ::
  match readAsDataURL C image with
  | inl _ => []
  | inr result =>
      [NetworkCall ROBOTFLOW_WORKFLOW_ENDPOINT "POST"
         [("Content-Type", "application/json")]
         (request_text P (base64_of result))]
  end.

Definition or_empty (o : option string) : string :=
  match o with
  | Some t => t
  | None => ""
  end.

(** The state an invocation with an image ends in. *)
Definition final_ui (s : UI) (m : Summary) : UI :=
  {| selectedImage := selectedImage s;
     imagePreviewUrl := imagePreviewUrl s;
     detectionResult := or_empty (result_written m);
     rawApiResponse := or_empty (raw_written m);
     isLoading := false;
     errorMessage :=
       match threw m with
       | Some e => failure_message e
       | None => ""
       end |}.

(** The state after the [try] block: the texts it wrote replace the
    old ones. *)
Definition apply_summary (m : Summary) (s : UI) : UI :=
  {| selectedImage := selectedImage s;
     imagePreviewUrl := imagePreviewUrl s;
     detectionResult :=
       match result_written m with
       | Some r => r
       | None => detectionResult s
       end;
     rawApiResponse :=
       match raw_written m with
       | Some r => r
       | None => rawApiResponse s
       end;
     isLoading := isLoading s;
     errorMessage := errorMessage s |}.

Definition completion (m : Summary) : thrown + unit :=
  match threw m with
  | Some e => inl e
  | None => inr tt
  end.

(** The collaborators answer the request for [image] with [response]. *)
Definition answers (C : Collaborators) (image : File) (response : Response) : Prop :=
  exists result,
    readAsDataURL C image = inr result /\
    fetch C ROBOTFLOW_WORKFLOW_ENDPOINT (request_text P (base64_of result))
      = inr response.

(** The collaborators answer with a success status and a body that
    parses to [data]. *)
Definition succeeds_with (C : Collaborators) (image : File) (data : json) : Prop :=
  exists response,
    answers C image response /\ ok response = true /\
    response_json P response = inr data.

(** The world at the start of the [try] block: the four resets done. *)
Definition started (w : World) : World :=
  {| ui := with_rawApiResponse ""
             (with_detectionResult ""
                (with_errorMessage "" (with_isLoading true (ui w))));
     trace := trace w |}.

(** The component's state after [handleDetectDisease]. *)
Definition after_detect (C : Collaborators) (w : World) : UI :=
  ui (snd (handleDetectDisease P C w)).

End Analysis.

(** ** The outcome shown to the user *)

(** The four outcomes of the specification. [Success] carries the label
    and the confidence as the handler writes it, a percentage with two
    decimals. *)
Inductive DetectionOutcome :=
| NoImageSelected
| Success (label : string) (confidencePercent : string)
| NoPredictionFound
| RequestFailed (reason : string).

(** The outcome read off the two message slots of the component. *)
Definition shows (s : UI) (o : DetectionOutcome) : Prop :=
  match o with
  | NoImageSelected => errorMessage s = select_image_message
  | Success label pct =>
      errorMessage s = "" /\ detectionResult s = detected_message label pct
  | NoPredictionFound =>
      errorMessage s = "" /\ detectionResult s = no_prediction_message
  | RequestFailed reason =>
      errorMessage s = "Failed to detect disease: " ++ reason ++ "."
  end.

Inductive OutcomeKind := KNoImage | KSuccess | KNoPrediction | KFailed.

Definition kind (o : DetectionOutcome) : OutcomeKind :=
  match o with
  | NoImageSelected => KNoImage
  | Success _ _ => KSuccess
  | NoPredictionFound => KNoPrediction
  | RequestFailed _ => KFailed
  end.

(** ** The search as the specification words it *)

(** The first entry of [output.model_predictions.predictions], when the
    output has such a list and it is not empty. *)
Definition leading_entry (output : json) : option json :=
  match output with
  | JObj o =>
      match get_own o "model_predictions" with
      | Some (JObj mp) =>
          match get_own mp "predictions" with
          | Some (JArr (entry :: _)) => Some entry
          | _ => None
          end
      | _ => None
      end
  | _ => None
  end.

Definition field (entry : json) (k : string) : value :=
  match entry with
  | JObj props => get_own props k
  | _ => None
  end.

(** The class is "chicken" in some letter case: its lower-casing by the
    host is "chicken". *)
Definition is_chicken (P : Platform) (cls : string) : bool :=
  (toLowerCase P cls =? "chicken")%string.

(** An entry with a string class, a numeric confidence and a class that
    is not "chicken" in any letter case. *)
Definition qualifies_as_stated (P : Platform) (entry : json) : option (string * float) :=
  match field entry "class", field entry "confidence" with
  | Some (JStr cls), Some (JNum c) =>
      if is_chicken P cls then None else Some (cls, c)
  | _, _ => None
  end.

(** The same, with a class that is moreover not the empty string. *)
Definition qualifies (P : Platform) (entry : json) : option (string * float) :=
  match field entry "class", field entry "confidence" with
  | Some (JStr cls), Some (JNum c) =>
      if (cls =? "")%string || is_chicken P cls then None else Some (cls, c)
  | _, _ => None
  end.

(** First match over the leading entries, for a given test. *)
Fixpoint first_match (test : json -> option (string * float))
    (outputs : list json) : option (string * float) :=
  match outputs with
  | [] => None
  | output :: rest =>
      match leading_entry output with
      | Some entry =>
          match test entry with
          | Some found => Some found
          | None => first_match test rest
          end
      | None => first_match test rest
      end
  end.

(** Outputs on which the loop body raises a [TypeError]: a [null]
    output, a [null] leading entry, a leading entry whose class is
    truthy but not a string while its confidence is a number. *)
Definition raises (output : json) : bool :=
  match output with
  | JNull => true
  | _ =>
      match leading_entry output with
      | Some JNull => true
      | Some entry =>
          match field entry "class" with
          | Some (JStr _) => false
          | cls => truthy cls && typeof_number (field entry "confidence")
          end
      | None => false
      end
  end.

(** An output the search passes over: it does not raise and its leading
    entry, if any, does not qualify. *)
Definition passed_over (P : Platform) (output : json) : Prop :=
  raises output = false /\
  match leading_entry output with
  | Some entry => qualifies P entry = None
  | None => True
  end.

(** ** Runs of the component *)

(** The states the component reaches from its initial state when each
    call of a handler runs to its end before the next one starts. (Runs
    in which a detection is still pending while the file input changes
    are those of [run], below.) *)
Inductive reachable (P : Platform) : World -> Prop :=
| reach_initial :
    reachable P {| ui := initial_ui; trace := [] |}
| reach_image_change w file :
    reachable P w -> reachable P (snd (handleImageChange P file w))
| reach_detect w C :
    reachable P w -> reachable P (snd (handleDetectDisease P C w)).

(** "[needle] occurs in [text]". *)
Fixpoint mentions (text needle : string) : bool :=
  match text with
  | EmptyString => (needle =? "")%string
  | String _ rest => String.prefix needle text || mentions rest needle
  end.

(** ** Test doubles *)

(** A host whose [JSON.parse] knows the texts of [table] and rejects
    every other text, with the error wording of V8. *)
Definition stub_parse (table : list (string * json)) (text : string) : thrown + json :=
  match find (fun p => (fst p =? text)%string) table with
  | Some p => inr (snd p)
  | None => inl (ErrorObject SyntaxError "Unexpected token")
  end.

(** The test host. Its [toLowerCase] lower-cases the letters A to Z,
    which is all the lower-casing there is in the ASCII texts of the
    examples. *)
Definition stub_platform (table : list (string * json)) : Platform :=
  {| JSON_parse := stub_parse table;
     JSON_stringify := fun _ n => if (n =? 0)%nat then "<request>" else "<pretty>";
     Number_toString := fun _ => "1e+21";
     toLowerCase := ascii_lower;
     cannot_read := fun k => "Cannot read properties of null (reading '" ++ k ++ "')";
     not_a_function := fun k => "topPrediction.class." ++ k ++ " is not a function";
     createObjectURL := fun f => "blob:" ++ file_name f |}.

Definition a_file : File :=
  {| file_name := "hen.png"; file_type := "image/png"; file_bytes := [] |}.

(** Collaborators that read the file and answer the request with the
    given response. *)
Definition server (r : Response) : Collaborators :=
  {| readAsDataURL := fun _ => inr "data:image/png;base64,aGVu";
     fetch := fun _ _ => inr r |}.

Definition with_image (f : File) : World :=
  {| ui := {| selectedImage := Some f; imagePreviewUrl := "blob:hen.png";
              detectionResult := ""; rawApiResponse := "";
              isLoading := false; errorMessage := "" |};
     trace := [] |}.

(** [{ model_predictions: { predictions: [ entry ] } }]. *)
Definition output_with (entry : json) : json :=
  JObj [("model_predictions", JObj [("predictions", JArr [entry])])].

Definition prediction (cls : json) (confidence : json) : json :=
  JObj [("class", cls); ("confidence", confidence)].

Definition newcastle : json :=
  output_with (prediction (JStr "Newcastle Disease") (JNum 0.8734)).


(** A host that parses the text ["<body>"] to [data], and a server that
    answers 200 with that text. *)
Definition stub_for (data : json) : Platform := stub_platform [("<body>", data)].

Definition ok_server : Collaborators :=
  server {| status := 200; body := inr "<body>" |}.

Definition response_of (outputs : list json) : json :=
  JObj [("outputs", JArr outputs)].

(** An entry with an empty class ahead of a Newcastle entry. *)
Definition empty_then_newcastle : list json :=
  [ output_with (prediction (JStr "") (JNum 0.9));
    output_with (prediction (JStr "Newcastle Disease") (JNum 0.5)) ].

(** A chicken entry ahead of a Newcastle entry, and a stronger entry
    behind it. *)
Definition chicken_newcastle_gumboro : list json :=
  [ output_with (prediction (JStr "CHICKEN") (JNum 0.99));
    newcastle;
    output_with (prediction (JStr "Gumboro") (JNum 0.95)) ].

(** A chicken entry followed by an entry whose class is a number. *)
Definition chicken_then_mistyped : list json :=
  [ output_with (prediction (JStr "Chicken") (JNum 0.9));
    output_with (prediction (JNum 5) (JNum 0.8)) ].

(** A single entry whose class is a number. *)
Definition mistyped_class : list json :=
  [ output_with (prediction (JNum 5) (JNum 0.9)) ].

(** The text written for [x] is [x] rounded to hundredths: for a finite
    [x] of magnitude below 10^21 it is the sign followed by the fixed
    notation of the integer [n] nearest to 100 times the magnitude (the
    larger on a tie), which up to 100.00 reads as [two_decimals n]. *)
Definition two_decimals (n : Z) : string :=
  digits (n / 100) ++ "." ++ digits ((n mod 100) / 10) ++ digits (n mod 10).

Definition rounded_to_hundredths (x : float) (text : string) : Prop :=
  forall r, real_of x = Some r ->
  (magnitude r < inject_Z (10 ^ 21))%Q ->
  exists n : Z,
    text = sign_text r ++ fixed_text n 2 /\
    (- (1 # 2) < inject_Z n - magnitude r * inject_Z 100)%Q /\
    (inject_Z n - magnitude r * inject_Z 100 <= 1 # 2)%Q /\
    0 <= n /\
    (n <= 10000 -> fixed_text n 2 = two_decimals n).

(** The host [P] with another pretty-printer for the diagnostic text
    ([JSON.stringify] with a [space]); the printing of the request
    ([space = 0]) is kept. *)
Definition with_printer (P : Platform) (printer : json -> nat -> string) : Platform :=
  {| JSON_parse := JSON_parse P;
     JSON_stringify := fun v space =>
       if (space =? 0)%nat then JSON_stringify P v 0 else printer v space;
     Number_toString := Number_toString P;
     toLowerCase := toLowerCase P;
     cannot_read := cannot_read P;
     not_a_function := not_a_function P;
     createObjectURL := createObjectURL P |}.

(** The world [w] with another text in the diagnostic slot. *)
Definition with_diagnostic (text : string) (w : World) : World :=
  {| ui := with_rawApiResponse text (ui w); trace := trace w |}.

(** A reader that fails, and a network that is unreachable. *)
Definition unreadable : Collaborators :=
  {| readAsDataURL := fun _ => inl NoMessage;
     fetch := fun _ _ => inr {| status := 200; body := inr "<body>" |} |}.

Definition offline : Collaborators :=
  {| readAsDataURL := fun _ => inr "data:image/png;base64,aGVu";
     fetch := fun _ _ => inl (ErrorObject TypeError "Failed to fetch") |}.

Definition unauthorized_reason : string :=
  "API error: 401 Unauthorized. Check API key/workflow access.".

Definition unauthorized_server (text : string) : Collaborators :=
  server {| status := 401; body := inr text |}.

(** A server that answers 200 with a page that is not JSON. *)
Definition garbled_server : Collaborators :=
  server {| status := 200; body := inr "<html>Bad gateway</html>" |}.

(** A strong entry ahead of the Newcastle entry. *)
Definition gumboro_then_newcastle : list json :=
  [ output_with (prediction (JStr "Gumboro") (JNum 0.95)); newcastle ].

(** ** What the component renders *)

(** [{text && (...)}]: a panel is rendered when its text is not empty. *)
Definition shown (text : string) : option string :=
  if (text =? "")%string then None else Some text.

(** The part of the rendered page that depends on the detection state:
    the image preview, the [disabled] attribute of the "Detect Disease"
    button, and the error, result and raw-response panels. *)
Record View := {
  preview : option string;
  detect_disabled : bool;
  error_panel : option string;
  result_panel : option string;
  raw_panel : option string
}.

Definition render (s : UI) : View :=
  {| preview := shown (imagePreviewUrl s);
     detect_disabled :=
       isLoading s || match selectedImage s with Some _ => false | None => true end;
     error_panel := shown (errorMessage s);
     result_panel := shown (detectionResult s);
     raw_panel := shown (rawApiResponse s) |}.

(** ** Traces *)

Fixpoint network_calls (t : list Effect) : nat :=
  match t with
  | [] => 0
  | NetworkCall _ _ _ _ :: rest => S (network_calls rest)
  | FileRead _ :: rest => network_calls rest
  end.

Fixpoint file_reads (t : list Effect) : nat :=
  match t with
  | [] => 0
  | FileRead _ :: rest => S (file_reads rest)
  | NetworkCall _ _ _ _ :: rest => file_reads rest
  end.

(** The only request the component sends: a POST of a [requestBody] to
    the workflow endpoint, as JSON. *)
Definition is_workflow_post (P : Platform) (e : Effect) : Prop :=
  match e with
  | FileRead _ => True
  | NetworkCall url method headers text =>
      url = ROBOTFLOW_WORKFLOW_ENDPOINT /\ method = "POST" /\
      headers = [("Content-Type", "application/json")] /\
      exists base64Image, text = request_text P base64Image
  end.

(** [c] occurs in [s]. *)
Fixpoint has_char (c : ascii) (s : string) : bool :=
  match s with
  | EmptyString => false
  | String c' rest => Ascii.eqb c' c || has_char c rest
  end.

(** A path of properties from a value. *)
Fixpoint field_path (v : json) (path : list string) : value :=
  match path with
  | [] => Some v
  | k :: rest =>
      match field v k with
      | Some v' => field_path v' rest
      | None => None
      end
  end.

(** ** The webcam switch *)

(** The two state variables of the webcam section. *)
Record Webcam := {
  webcamActive : bool;
  webcamError : string
}.

Definition initial_webcam : Webcam :=
  {| webcamActive := false; webcamError := "" |}.

(** [toggleWebcam()]. *)
Definition toggleWebcam (s : Webcam) : Webcam :=
  {| webcamActive := negb (webcamActive s); webcamError := "" |}.

Definition webcam_error_message : string :=
  "Cannot access webcam. Please ensure it's connected and permissions are granted.".

(** The [catch] handler of [getUserMedia] in the webcam effect. (The
    [then] handler and the clean-up only touch the video element.) *)
Definition webcam_rejected (s : Webcam) : Webcam :=
  {| webcamActive := false; webcamError := webcam_error_message |}.

(** The states of the switch: after any sequence of toggles and of
    rejected camera requests. *)
Inductive webcam_reachable : Webcam -> Prop :=
| webcam_initial : webcam_reachable initial_webcam
| webcam_toggle s : webcam_reachable s -> webcam_reachable (toggleWebcam s)
| webcam_reject s : webcam_reachable s -> webcam_reachable (webcam_rejected s).

(** The two overlays of the video: [!webcamActive && !webcamError] and
    [webcamError]. *)
Definition placeholder_overlay (s : Webcam) : bool :=
  negb (webcamActive s) && negb (negb (webcamError s =? "")%string).

Definition error_overlay (s : Webcam) : option string :=
  shown (webcamError s).

(** A reader whose result has no comma. *)
Definition blank_reader : Collaborators :=
  {| readAsDataURL := fun _ => inr "data:";
     fetch := fun _ _ => inr {| status := 200; body := inr "<body>" |} |}.

(** A server that refuses with the given status. *)
Definition refusing_server (code : Z) : Collaborators :=
  server {| status := code; body := inr "busy" |}.

(** A null output ahead of the Newcastle entry. *)
Definition null_then_newcastle : list json := [ JNull; newcastle ].

(** The message of the [TypeError] an output makes the loop raise:
    reading [model_predictions] of a [null] output, reading [class] of a
    [null] leading entry, or calling [toLowerCase] on a class that is not
    a string. *)
Definition raise_message (P : Platform) (output : json) : string :=
  match output with
  | JNull => cannot_read P "model_predictions"
  | _ =>
      match leading_entry output with
      | Some JNull => cannot_read P "class"
      | _ => not_a_function P "toLowerCase"
      end
  end.

(** The outcome the first-match search stands for. *)
Definition outcome_of_match (P : Platform) (found : option (string * float)) :
    DetectionOutcome :=
  match found with
  | Some (cls, c) => Success cls (confidence_text P c)
  | None => NoPredictionFound
  end.

(** ** Calls in flight *)

(** [handleDetectDisease] is asynchronous: after its resets it waits for
    the file, for the response and for the body, and other handlers may
    run meanwhile. On every path of the [try] statement all the state
    updates come after the last wait, so a call updates the state twice:
    when it is invoked (the precondition and the resets) and when it
    finishes ([detect_rest], the [try] statement run on the state of that
    moment; the trace records the read and the request of a call when it
    finishes). The image is the [selectedImage] the call closed over. *)
Definition detect_rest (P : Platform) (C : Collaborators) (image : File) : M unit :=
  try_catch_finally
    (detect_body P C image)
    (fun error => setErrorMessage (failure_message error))
    (setIsLoading false).

(** A call that has been invoked and has not finished. *)
Record Call := {
  call_collaborators : Collaborators;
  call_image : File
}.

(** The component with its calls in flight. *)
Record Running := {
  world : World;
  in_flight : list Call
}.

Definition mounted : Running :=
  {| world := {| ui := initial_ui; trace := [] |}; in_flight := [] |}.

(** What happens to the component: the file input changes;
    [handleDetectDisease] is called; the user clicks the "Detect Disease"
    button (a disabled button does not call its handler); the [n]-th call
    in flight receives its last answer and finishes. *)
Inductive Event :=
| Change (file : option File)
| Invoke (C : Collaborators)
| Click (C : Collaborators)
| Settle (n : nat).

(** The synchronous start of [handleDetectDisease]. *)
Definition invoke (C : Collaborators) (r : Running) : Running :=
  match selectedImage (ui (world r)) with
  | None =>
      {| world := snd (setErrorMessage select_image_message (world r));
         in_flight := in_flight r |}
  | Some image =>
      {| world := started (world r);
         in_flight := (in_flight r
                       ++ [{| call_collaborators := C; call_image := image |}])%list |}
  end.

Fixpoint remove_nth {A : Type} (n : nat) (l : list A) : list A :=
  match n, l with
  | _, [] => []
  | O, _ :: rest => rest
  | S k, x :: rest => x :: remove_nth k rest
  end.

Definition step (P : Platform) (r : Running) (e : Event) : Running :=
  match e with
  | Change file =>
      {| world := snd (handleImageChange P file (world r));
         in_flight := in_flight r |}
  | Invoke C => invoke C r
  | Click C =>
      if detect_disabled (render (ui (world r))) then r else invoke C r
  | Settle n =>
      match nth_error (in_flight r) n with
      | Some call =>
          {| world := snd (detect_rest P (call_collaborators call)
                             (call_image call) (world r));
             in_flight := remove_nth n (in_flight r) |}
      | None => r
      end
  end.

Definition run (P : Platform) (events : list Event) : Running :=
  fold_left (step P) events mounted.

(** An event the page itself can produce: everything but a direct call
    of the handler. *)
Definition from_the_page (e : Event) : Prop :=
  match e with
  | Invoke _ => False
  | _ => True
  end.

(** The state a finished call leaves, from the state [s] it finds. *)
Definition settled_ui (s : UI) (m : Summary) : UI :=
  {| selectedImage := selectedImage s;
     imagePreviewUrl := imagePreviewUrl s;
     detectionResult :=
       match result_written m with
       | Some r => r
       | None => detectionResult s
       end;
     rawApiResponse :=
       match raw_written m with
       | Some r => r
       | None => rawApiResponse s
       end;
     isLoading := false;
     errorMessage :=
       match threw m with
       | Some e => failure_message e
       | None => errorMessage s
       end |}.

(** Exactly one of the two messages is set. *)
Definition one_message (s : UI) : Prop :=
  (errorMessage s <> "" /\ detectionResult s = "") \/
  (errorMessage s = "" /\ detectionResult s <> "").

(** A server that answers 401 and whose body cannot be read. *)
Definition unauthorized_unreadable : Collaborators :=
  server {| status := 401;
            body := inl (ErrorObject TypeError "network error") |}.

(** The file is chosen, detection is started, the choice is cleared
    while the request is pending, then the response arrives. *)
Definition cleared_while_pending : list Event :=
  [ Change (Some a_file); Click ok_server; Change None; Settle 0 ].

(** What holds of the component while it is driven through the page:
    at most one call is in flight; while one is, the loading flag is set
    and the three texts are empty; otherwise the flag is clear, the two
    messages are not both set and a raw response comes with one of them.
    The preview goes with the selected image. *)
Definition page_invariant (r : Running) : Prop :=
  match in_flight r with
  | [] =>
      isLoading (ui (world r)) = false /\
      (errorMessage (ui (world r)) = "" \/ detectionResult (ui (world r)) = "") /\
      (rawApiResponse (ui (world r)) <> "" ->
       errorMessage (ui (world r)) <> "" \/ detectionResult (ui (world r)) <> "")
  | [_] =>
      isLoading (ui (world r)) = true /\
      errorMessage (ui (world r)) = "" /\
      detectionResult (ui (world r)) = "" /\
      rawApiResponse (ui (world r)) = ""
  | _ => False
  end /\
  (selectedImage (ui (world r)) = None -> imagePreviewUrl (ui (world r)) = "").

(** ** The handler and its summary *)

Section Characterisation.
Variable P : Platform.

Lemma for_outputs_search outputs w :
  for_outputs P outputs w =
  match search P outputs with
  | inl e => (inl e, w)
  | inr None => (inr false, w)
  | inr (Some (cls, c)) =>
      (inr true,
       {| ui := with_detectionResult
                  (detected_message cls (confidence_text P c)) (ui w);
          trace := trace w |})
  end.
Proof.
  induction outputs as [|output rest IH]; [reflexivity|].
  cbn [for_outputs search]. unfold bind, lift, bindE.
  destruct (has_predictions P output) as [e|[|]]; auto.
  destruct (first_prediction P output) as [e|top]; auto.
  destruct (accepted P top) as [e|[[cls c]|]]; auto.
Qed.

Lemma interpret_interpreted data s tr :
  interpret P data {| ui := s; trace := tr |} =
  (completion (interpreted P data),
   {| ui := apply_summary (interpreted P data) s; trace := tr |}).
Proof.
  destruct s as [si ip dr ra il em].
  unfold interpret, interpreted, scan, bind, lift, bindE, setRawApiResponse,
    setDetectionResult, update, ret, completion.
  cbn [ui trace].
  destruct (get P (Some data) "outputs") as [e|outputs]; [reflexivity|].
  destruct (truthy outputs && isArray outputs).
  - rewrite for_outputs_search.
    destruct (search P (elements outputs)) as [e|[[cls c]|]]; reflexivity.
  - reflexivity.
Qed.

Lemma status_failure_throws response errorText s tr :
  body response = inr errorText ->
  status_failure P response {| ui := s; trace := tr |} =
  (inl (status_error response errorText),
   {| ui := with_rawApiResponse (diagnostic P errorText) s; trace := tr |}).
Proof.
  intros Hb. unfold status_failure, bind, lift, try_catch, status_error, diagnostic.
  rewrite Hb.
  unfold setRawApiResponse, update, throw. cbn [ui trace].
  destruct (JSON_parse P errorText) as [e|parsed]; cbn [ui trace];
    destruct (status response =? 401); try reflexivity;
    destruct (status response =? 403); try reflexivity;
    destruct (status response =? 422); reflexivity.
Qed.

Lemma detect_body_summary C image s tr :
  detect_body P C image {| ui := s; trace := tr |} =
  (completion (summary P C image),
   {| ui := apply_summary (summary P C image) s;
      trace := tr ++ effects P C image |}).
Proof.
  destruct s as [si ip dr ra il em].
  unfold detect_body, fileToBase64, summary, effects, bind, emit, lift, throw, ret.
  cbn [ui trace]. fold (base64_of).
  destruct (readAsDataURL C image) as [e|result]; [reflexivity|].
  cbn [ui trace]. rewrite <- app_assoc. cbn [app].
  change (nth_error (split "," result) 1) with (base64_of result).
  destruct (fetch C ROBOTFLOW_WORKFLOW_ENDPOINT (request_text P (base64_of result)))
    as [e|response]; [reflexivity|].
  destruct (ok response); cbn [negb].
  - unfold ret. destruct (response_json P response) as [e|data]; [reflexivity|].
    rewrite interpret_interpreted. reflexivity.
  - destruct (body response) as [e|errorText] eqn:Hb.
    + unfold status_failure, bind, lift. rewrite Hb. reflexivity.
    + rewrite (status_failure_throws _ errorText _ _ Hb). reflexivity.
Qed.

(** An invocation without an image only sets the error message. *)
Lemma handle_without_image C w :
  selectedImage (ui w) = None ->
  handleDetectDisease P C w =
  (inr tt,
   {| ui := with_errorMessage select_image_message (ui w); trace := trace w |}).
Proof.
  intros H. unfold handleDetectDisease. rewrite H. reflexivity.
Qed.

(** An invocation with an image ends in [final_ui]. *)
Lemma handle_with_image C w image :
  selectedImage (ui w) = Some image ->
  handleDetectDisease P C w =
  (inr tt,
   {| ui := final_ui (ui w) (summary P C image);
      trace := trace w ++ effects P C image |}).
Proof.
  intros H. unfold handleDetectDisease. rewrite H.
  destruct w as [s tr]. cbn [ui trace] in *.
  unfold bind, setIsLoading, setErrorMessage, setDetectionResult,
    setRawApiResponse, update, try_catch_finally.
  cbn [ui trace]. rewrite detect_body_summary.
  unfold completion, final_ui, apply_summary.
  destruct (summary P C image) as [[e|] raw res]; cbn;
    destruct raw, res; reflexivity.
Qed.

End Characterisation.

(** ** The loop against the first-match search *)

Section Search.
Variable P : Platform.

Lemma has_predictions_leading output :
  output <> JNull ->
  has_predictions P output =
  inr (match leading_entry output with Some _ => true | None => false end).
Proof.
  intros Hnull. unfold has_predictions, leading_entry, bindE.
  destruct output as [| b | x | s | items | o]; try reflexivity; [congruence|].
  cbn [get].
  destruct (get_own o "model_predictions") as [[| b | x | s | items | mp]|];
    cbn [truthy get]; try reflexivity.
  - destruct b; reflexivity.
  - destruct (negb _); reflexivity.
  - destruct (negb _); reflexivity.
  - destruct (get_own mp "predictions") as [[| b | x | s | [|entry items] | ps]|];
      cbn; try reflexivity.
    + destruct b; reflexivity.
    + destruct (negb _); reflexivity.
    + destruct (negb _); reflexivity.
Qed.

Lemma first_prediction_leading output entry :
  leading_entry output = Some entry ->
  first_prediction P output = inr (Some entry).
Proof.
  unfold first_prediction, leading_entry, bindE.
  destruct output as [| b | x | s | items | o]; try discriminate.
  cbn [get].
  destruct (get_own o "model_predictions") as [[| b | x | s | items | mp]|];
    try discriminate.
  cbn [get].
  destruct (get_own mp "predictions") as [[| b | x | s | [|e items] | ps]|];
    try discriminate.
  intros [= ->]. reflexivity.
Qed.

(** On an entry that does not raise, the acceptance test of the
    handler is [qualifies]. *)
Lemma accepted_qualifies output entry :
  leading_entry output = Some entry ->
  raises output = false ->
  accepted P (Some entry) = inr (qualifies P entry).
Proof.
  intros Hlead Hr. unfold raises in Hr. rewrite Hlead in Hr.
  assert (Hr' : match entry with
                | JNull => true
                | _ => match field entry "class" with
                       | Some (JStr _) => false
                       | cls => truthy cls && typeof_number (field entry "confidence")
                       end
                end = false).
  { destruct output; [discriminate Hlead | exact Hr ..]. }
  clear Hr Hlead.
  unfold accepted, qualifies, bindE.
  destruct entry as [| b | x | s | items | props]; try discriminate Hr'; try reflexivity.
  cbn [get field] in *.
  destruct (get_own props "class") as [[| b | x | s | items | o]|];
    cbn [truthy] in *; try reflexivity.
  - destruct b; [|reflexivity]. cbn [andb] in Hr'.
    destruct (get_own props "confidence") as [[]|]; try reflexivity; discriminate.
  - destruct (negb (PrimFloat.is_zero x || PrimFloat.is_nan x)); [|reflexivity].
    cbn [andb] in Hr'.
    destruct (get_own props "confidence") as [[]|]; try reflexivity; discriminate.
  - unfold is_chicken. destruct (s =? "")%string; cbn [negb orb].
    + destruct (get_own props "confidence") as [[]|]; reflexivity.
    + destruct (get_own props "confidence") as [[]|]; try reflexivity.
      destruct (toLowerCase P s =? "chicken")%string; reflexivity.
  - cbn [andb] in Hr'.
    destruct (get_own props "confidence") as [[]|]; try reflexivity; discriminate.
  - cbn [andb] in Hr'.
    destruct (get_own props "confidence") as [[]|]; try reflexivity; discriminate.
Qed.

Lemma raises_not_null output : raises output = false -> output <> JNull.
Proof. intros H ->. discriminate H. Qed.

(** The loop goes on after an output that is passed over. *)
Lemma search_passed_over output rest :
  passed_over P output -> search P (output :: rest) = search P rest.
Proof.
  intros [Hr Hq]. cbn [search].
  rewrite (has_predictions_leading _ (raises_not_null _ Hr)).
  destruct (leading_entry output) as [entry|] eqn:Hlead; cbn [bindE]; [|reflexivity].
  rewrite (first_prediction_leading _ _ Hlead). cbn [bindE].
  rewrite (accepted_qualifies _ _ Hlead Hr). cbn [bindE].
  rewrite Hq. reflexivity.
Qed.

(** The loop stops at an output whose leading entry qualifies. *)
Lemma search_accepts output rest entry found :
  raises output = false ->
  leading_entry output = Some entry ->
  qualifies P entry = Some found ->
  search P (output :: rest) = inr (Some found).
Proof.
  intros Hr Hlead Hq. cbn [search].
  rewrite (has_predictions_leading _ (raises_not_null _ Hr)), Hlead. cbn [bindE].
  rewrite (first_prediction_leading _ _ Hlead). cbn [bindE].
  rewrite (accepted_qualifies _ _ Hlead Hr). cbn [bindE].
  rewrite Hq. reflexivity.
Qed.

(** A qualifying entry never raises. *)
Lemma qualifies_no_raise output entry found :
  leading_entry output = Some entry ->
  qualifies P entry = Some found ->
  raises output = false.
Proof.
  intros Hlead Hq. unfold raises. rewrite Hlead.
  unfold qualifies in Hq.
  destruct output; try discriminate Hlead.
  destruct entry as [| b | x | s | items | fields]; try discriminate Hq.
  cbn [field] in *.
  destruct (get_own fields "class") as [[]|]; try discriminate Hq. reflexivity.
Qed.

Lemma search_skips pre rest :
  Forall (passed_over P) pre -> search P (pre ++ rest) = search P rest.
Proof.
  induction 1 as [|output pre Hp _ IH]; [reflexivity|].
  cbn [app]. rewrite (search_passed_over _ _ Hp). exact IH.
Qed.

Lemma search_first pre output post entry found :
  Forall (passed_over P) pre ->
  leading_entry output = Some entry ->
  qualifies P entry = Some found ->
  search P (pre ++ output :: post) = inr (Some found).
Proof.
  intros Hpre Hlead Hq. rewrite (search_skips _ _ Hpre).
  exact (search_accepts _ _ _ _ (qualifies_no_raise _ _ _ Hlead Hq) Hlead Hq).
Qed.

Lemma search_none outputs :
  Forall (passed_over P) outputs -> search P outputs = inr None.
Proof.
  intros H. rewrite <- (app_nil_r outputs). rewrite (search_skips _ _ H).
  reflexivity.
Qed.

(** With no raising output, the loop is the first-match search. *)
Lemma search_first_match outputs :
  Forall (fun o => raises o = false) outputs ->
  search P outputs = inr (first_match (qualifies P) outputs).
Proof.
  induction 1 as [|output rest Hr _ IH]; [reflexivity|].
  cbn [first_match].
  destruct (leading_entry output) as [entry|] eqn:Hlead.
  - destruct (qualifies P entry) as [found|] eqn:Hq.
    + exact (search_accepts _ _ _ _ Hr Hlead Hq).
    + rewrite search_passed_over; [exact IH|].
      split; [exact Hr|]. rewrite Hlead. exact Hq.
  - rewrite search_passed_over; [exact IH|].
    split; [exact Hr|]. rewrite Hlead. exact I.
Qed.

End Search.

(** ** Outcomes of an invocation *)

Section Outcomes.
Variable P : Platform.

Lemma after_detect_with_image C w image :
  selectedImage (ui w) = Some image ->
  after_detect P C w = final_ui (ui w) (summary P C image).
Proof.
  intros H. unfold after_detect. rewrite (handle_with_image P C w image H).
  reflexivity.
Qed.

Lemma after_detect_without_image C w :
  selectedImage (ui w) = None ->
  after_detect P C w = with_errorMessage select_image_message (ui w).
Proof.
  intros H. unfold after_detect. rewrite (handle_without_image P C w H).
  reflexivity.
Qed.

Lemma summary_answered C image response :
  answers P C image response ->
  summary P C image =
  if negb (ok response) then
    match body response with
    | inl e => failed e
    | inr errorText =>
        {| threw := Some (status_error response errorText);
           raw_written := Some (diagnostic P errorText);
           result_written := None |}
    end
  else
    match response_json P response with
    | inl e => failed e
    | inr data => interpreted P data
    end.
Proof.
  intros (result & Hread & Hfetch). unfold summary.
  rewrite Hread, Hfetch. reflexivity.
Qed.

Lemma summary_success C image data :
  succeeds_with P C image data -> summary P C image = interpreted P data.
Proof.
  intros (response & Hans & Hok & Hjson).
  rewrite (summary_answered _ _ _ Hans), Hok, Hjson. reflexivity.
Qed.

Lemma scan_outputs data outputs :
  field data "outputs" = Some (JArr outputs) ->
  scan P data = search P outputs.
Proof.
  unfold scan, field, bindE. destruct data; try discriminate.
  cbn [get]. intros ->. reflexivity.
Qed.

(** The outcome of a successful response whose search accepts an entry. *)
Lemma success_shown C w image data cls c :
  selectedImage (ui w) = Some image ->
  succeeds_with P C image data ->
  scan P data = inr (Some (cls, c)) ->
  errorMessage (after_detect P C w) = "" /\
  detectionResult (after_detect P C w)
    = detected_message cls (confidence_text P c) /\
  rawApiResponse (after_detect P C w) = JSON_stringify P data 2.
Proof.
  intros Himg Hok Hscan.
  rewrite (after_detect_with_image _ _ _ Himg), (summary_success _ _ _ Hok).
  unfold interpreted. rewrite Hscan. repeat split.
Qed.

(** The outcome of a successful response whose search finds nothing. *)
Lemma no_prediction_shown C w image data :
  selectedImage (ui w) = Some image ->
  succeeds_with P C image data ->
  scan P data = inr None ->
  errorMessage (after_detect P C w) = "" /\
  detectionResult (after_detect P C w) = no_prediction_message /\
  rawApiResponse (after_detect P C w) = JSON_stringify P data 2.
Proof.
  intros Himg Hok Hscan.
  rewrite (after_detect_with_image _ _ _ Himg), (summary_success _ _ _ Hok).
  unfold interpreted. rewrite Hscan. repeat split.
Qed.

(** The outcome of a successful response on which the search throws. *)
Lemma search_failure_shown C w image data e :
  selectedImage (ui w) = Some image ->
  succeeds_with P C image data ->
  scan P data = inl e ->
  errorMessage (after_detect P C w) = failure_message e /\
  detectionResult (after_detect P C w) = "" /\
  rawApiResponse (after_detect P C w) = JSON_stringify P data 2.
Proof.
  intros Himg Hok Hscan.
  rewrite (after_detect_with_image _ _ _ Himg), (summary_success _ _ _ Hok).
  unfold interpreted. rewrite Hscan. repeat split.
Qed.

Lemma first_match_skips test pre rest :
  Forall (fun o => match leading_entry o with
                   | Some entry => test entry = None
                   | None => True
                   end) pre ->
  first_match test (pre ++ rest) = first_match test rest.
Proof.
  induction 1 as [|output pre Hp _ IH]; [reflexivity|].
  cbn [app first_match].
  destruct (leading_entry output) as [entry|]; [rewrite Hp|]; exact IH.
Qed.

Lemma first_match_first pre output post entry found :
  Forall (passed_over P) pre ->
  leading_entry output = Some entry ->
  qualifies P entry = Some found ->
  first_match (qualifies P) (pre ++ output :: post) = Some found.
Proof.
  intros Hpre Hlead Hq. rewrite first_match_skips.
  - cbn [first_match]. rewrite Hlead, Hq. reflexivity.
  - eapply Forall_impl; [|exact Hpre]. intros o [_ H]. exact H.
Qed.

End Outcomes.

(** ** Rounding to a fixed number of decimals *)

(** [nearest r f] is the integer nearest to [r * 10^f], the larger one
    when two are equally near. *)
Lemma nearest_bounds (r : Q) (f : nat) :
  (- (1 # 2) < inject_Z (nearest r f) - r * inject_Z (10 ^ Z.of_nat f)
   /\ inject_Z (nearest r f) - r * inject_Z (10 ^ Z.of_nat f) <= 1 # 2)%Q.
Proof.
  unfold nearest.
  set (y := (r * inject_Z (10 ^ Z.of_nat f) + (1 # 2))%Q).
  pose proof (Qfloor_le y) as Hle.
  pose proof (Qlt_floor y) as Hlt.
  rewrite inject_Z_plus in Hlt.
  change (inject_Z 1) with 1%Q in Hlt.
  subst y. split; lra.
Qed.

Lemma toFixed_in_range N (x : float) (f : nat) (r : Q) :
  real_of x = Some r ->
  (magnitude r < inject_Z (10 ^ 21))%Q ->
  toFixed N x f = sign_text r ++ fixed_text (nearest (magnitude r) f) f.
Proof.
  intros Hx Hr. unfold toFixed. rewrite Hx.
  destruct (Qlt_le_dec (magnitude r) (inject_Z (10 ^ 21))) as [_|Hge];
    [reflexivity|].
  exfalso. apply (Qlt_not_le _ _ Hr Hge).
Qed.

(** Two decimals: the digits of the hundredths, a point before the last
    two. Checked for every count of hundredths up to 100.00. *)
Lemma fixed_text_two_decimals (n : Z) :
  0 <= n <= 10000 -> fixed_text n 2 = two_decimals n.
Proof.
  intros Hn.
  assert (Hall : forallb (fun k => (fixed_text (Z.of_nat k) 2
                                    =? two_decimals (Z.of_nat k))%string)
                   (seq 0 (Z.to_nat 10001)) = true) by (vm_compute; reflexivity).
  rewrite forallb_forall in Hall.
  specialize (Hall (Z.to_nat n)).
  rewrite Z2Nat.id in Hall by lia.
  apply String.eqb_eq, Hall, in_seq. lia.
Qed.

Lemma magnitude_nonneg (r : Q) : (0 <= magnitude r)%Q.
Proof.
  unfold magnitude. destruct (Qlt_le_dec r 0) as [H|H]; [lra | exact H].
Qed.

Lemma nearest_nonneg (r : Q) (f : nat) : (0 <= r)%Q -> 0 <= nearest r f.
Proof.
  intros Hr. unfold nearest. rewrite <- (Qfloor_Z 0).
  apply Qfloor_resp_le.
  assert (0 <= inject_Z (10 ^ Z.of_nat f))%Q.
  { change 0%Q with (inject_Z 0). rewrite <- Zle_Qle. apply Z.pow_nonneg. lia. }
  change (inject_Z 0) with 0%Q.
  pose proof (Qmult_le_0_compat _ _ Hr H). lra.
Qed.

Lemma toFixed_rounds N (x : float) :
  rounded_to_hundredths x (toFixed N x 2).
Proof.
  intros r Hx Hr. exists (nearest (magnitude r) 2).
  split; [exact (toFixed_in_range N x 2 r Hx Hr)|].
  pose proof (nearest_bounds (magnitude r) 2) as [Hlo Hhi].
  change (10 ^ Z.of_nat 2) with 100 in Hlo, Hhi.
  pose proof (nearest_nonneg (magnitude r) 2 (magnitude_nonneg r)) as Hn.
  repeat split; try assumption.
  intros Hle. apply fixed_text_two_decimals. lia.
Qed.

(** ** The accepted prediction *)

(** C1 (as amended). On a successful response whose [outputs] is
    [pre ++ output :: post], where every output of [pre] is passed over
    (it raises no [TypeError] and its leading entry, if any, does not
    qualify) and the leading entry of [output] qualifies (a class that is a
    non-empty string and not "chicken" in any letter case, a numeric
    confidence), the handler shows that entry as the detection, whatever
    [post] holds: later entries, of higher confidence or not, are never
    selected. That entry is the first match of the search. *)
Theorem first_match_is_accepted
    (P : Platform) (C : Collaborators) (w : World) (image : File)
    (data : json) (pre post : list json) (output entry : json)
    (cls : string) (c : float) :
  selectedImage (ui w) = Some image ->
  succeeds_with P C image data ->
  field data "outputs" = Some (JArr (pre ++ output :: post)) ->
  Forall (passed_over P) pre ->
  leading_entry output = Some entry ->
  qualifies P entry = Some (cls, c) ->
  shows (after_detect P C w) (Success cls (confidence_text P c)) /\
  first_match (qualifies P) (pre ++ output :: post) = Some (cls, c).
Proof.
  intros Himg Hok Hout Hpre Hlead Hq.
  assert (Hscan : scan P data = inr (Some (cls, c))).
  { rewrite (scan_outputs P _ _ Hout).
    exact (search_first P pre output post entry (cls, c) Hpre Hlead Hq). }
  destruct (success_shown P C w image data cls c Himg Hok Hscan) as (He & Hd & _).
  split; [split; assumption|].
  exact (first_match_first P pre output post entry (cls, c) Hpre Hlead Hq).
Qed.

(** C1, as stated, fails: an entry whose class is the empty string has a
    string class, a numeric confidence and is not "chicken", so the
    first match as stated is that entry; the handler passes over it and
    shows the later entry. *)
Lemma first_match_as_stated_fails :
  first_match (qualifies_as_stated (stub_for (response_of empty_then_newcastle)))
    empty_then_newcastle = Some ("", 0.9%float) /\
  detectionResult
    (after_detect (stub_for (response_of empty_then_newcastle)) ok_server
       (with_image a_file))
  = "Detected: Newcastle Disease (Confidence: 50.00%)".
Proof. split; vm_compute; reflexivity. Qed.

Lemma ok_server_succeeds (data : json) :
  succeeds_with (stub_for data) ok_server a_file data.
Proof.
  exists {| status := 200; body := inr "<body>" |}.
  split; [|split; reflexivity].
  exists "data:image/png;base64,aGVu". split; reflexivity.
Qed.

Lemma chicken_passed_over (table : list (string * json)) :
  passed_over (stub_platform table)
    (output_with (prediction (JStr "CHICKEN") (JNum 0.99))).
Proof. split; reflexivity. Qed.

Lemma first_match_is_accepted_witness :
  shows
    (after_detect (stub_for (response_of chicken_newcastle_gumboro)) ok_server
       (with_image a_file))
    (Success "Newcastle Disease"
       (confidence_text (stub_for (response_of chicken_newcastle_gumboro)) 0.8734)) /\
  first_match (qualifies (stub_for (response_of chicken_newcastle_gumboro)))
    chicken_newcastle_gumboro
  = Some ("Newcastle Disease", 0.8734%float).
Proof.
  apply (first_match_is_accepted
           (stub_for (response_of chicken_newcastle_gumboro)) ok_server
           (with_image a_file) a_file (response_of chicken_newcastle_gumboro)
           [output_with (prediction (JStr "CHICKEN") (JNum 0.99))]
           [output_with (prediction (JStr "Gumboro") (JNum 0.95))]
           newcastle
           (prediction (JStr "Newcastle Disease") (JNum 0.8734))).
  - reflexivity.
  - apply ok_server_succeeds.
  - reflexivity.
  - constructor; [exact (chicken_passed_over _) | constructor].
  - reflexivity.
  - reflexivity.
Defined.

(** C8. When the search accepts an entry (the outputs before it are
    passed over; its class [cls] is a non-empty string other than
    "chicken" in any letter case and its confidence [c] is a number),
    the handler shows [Success] with the class unchanged and with
    [(c * 100).toFixed(2)], which is [c * 100] rounded to hundredths; for
    the class "Newcastle Disease" and the confidence 0.8734 it shows
    "Newcastle Disease" and "87.34". *)
Theorem success_label_and_percentage
    (P : Platform) (C : Collaborators) (w : World) (image : File)
    (data : json) (pre post : list json) (output entry : json)
    (cls : string) (c : float) :
  selectedImage (ui w) = Some image ->
  succeeds_with P C image data ->
  field data "outputs" = Some (JArr (pre ++ output :: post)) ->
  Forall (passed_over P) pre ->
  leading_entry output = Some entry ->
  field entry "class" = Some (JStr cls) ->
  cls <> "" ->
  is_chicken P cls = false ->
  field entry "confidence" = Some (JNum c) ->
  let pct := toFixed (Number_toString P) (PrimFloat.mul c 100) 2 in
  detectionResult (after_detect P C w)
    = "Detected: " ++ cls ++ " (Confidence: " ++ pct ++ "%)" /\
  shows (after_detect P C w) (Success cls pct) /\
  rounded_to_hundredths (PrimFloat.mul c 100) pct /\
  (cls = "Newcastle Disease" -> c = 0.8734%float ->
   shows (after_detect P C w) (Success "Newcastle Disease" "87.34")).
Proof.
  intros Himg Hok Hout Hpre Hlead Hcls Hne Hch Hc pct.
  assert (Hq : qualifies P entry = Some (cls, c)).
  { unfold qualifies. rewrite Hcls, Hc, Hch.
    apply String.eqb_neq in Hne. rewrite Hne. reflexivity. }
  assert (Hscan : scan P data = inr (Some (cls, c))).
  { rewrite (scan_outputs P _ _ Hout).
    exact (search_first P pre output post entry (cls, c) Hpre Hlead Hq). }
  destruct (success_shown P C w image data cls c Himg Hok Hscan) as (He & Hd & _).
  assert (Hshows : shows (after_detect P C w) (Success cls pct))
    by (split; assumption).
  split; [exact Hd|]. split; [exact Hshows|].
  split; [apply toFixed_rounds|].
  intros -> ->. split; [exact He|].
  rewrite Hd. vm_compute. reflexivity.
Qed.

Lemma success_label_and_percentage_witness :
  let P := stub_for (response_of chicken_newcastle_gumboro) in
  let s := after_detect P ok_server (with_image a_file) in
  let pct := toFixed (Number_toString P) (PrimFloat.mul 0.8734 100) 2 in
  detectionResult s = "Detected: " ++ "Newcastle Disease" ++ " (Confidence: " ++ pct ++ "%)" /\
  shows s (Success "Newcastle Disease" pct) /\
  rounded_to_hundredths (PrimFloat.mul 0.8734 100) pct /\
  ("Newcastle Disease" = "Newcastle Disease" -> 0.8734%float = 0.8734%float ->
   shows s (Success "Newcastle Disease" "87.34")).
Proof.
  apply (success_label_and_percentage
           (stub_for (response_of chicken_newcastle_gumboro)) ok_server
           (with_image a_file) a_file (response_of chicken_newcastle_gumboro)
           [output_with (prediction (JStr "CHICKEN") (JNum 0.99))]
           [output_with (prediction (JStr "Gumboro") (JNum 0.95))]
           newcastle
           (prediction (JStr "Newcastle Disease") (JNum 0.8734))
           "Newcastle Disease" 0.8734%float).
  - reflexivity.
  - apply ok_server_succeeds.
  - reflexivity.
  - constructor; [exact (chicken_passed_over _) | constructor].
  - reflexivity.
  - reflexivity.
  - discriminate.
  - reflexivity.
  - reflexivity.
Defined.

(** C8, as stated, fails: when an earlier output has a qualifying
    leading entry, a response in which some output's leading entry is
    "Newcastle Disease" with confidence 0.8734 shows the earlier entry. *)
Lemma later_newcastle_is_not_shown :
  let s := after_detect (stub_for (response_of gumboro_then_newcastle)) ok_server
             (with_image a_file) in
  leading_entry newcastle
  = Some (prediction (JStr "Newcastle Disease") (JNum 0.8734)) /\
  In newcastle gumboro_then_newcastle /\
  shows s (Success "Gumboro" "95.00") /\
  detectionResult s <> detected_message "Newcastle Disease" "87.34".
Proof.
  repeat split; [right; left; reflexivity | discriminate].
Qed.

(** C10. An output whose leading entry has the empty string as class
    and a number as confidence is not accepted: the acceptance test
    answers "no", the loop goes on with the outputs that follow as if
    that output were absent, and when every other output is passed over
    the handler shows [NoPredictionFound], not [Success]. *)
Theorem empty_class_is_rejected
    (P : Platform) (output entry : json) (c : float) :
  leading_entry output = Some entry ->
  field entry "class" = Some (JStr "") ->
  field entry "confidence" = Some (JNum c) ->
  accepted P (Some entry) = inr None /\
  (forall rest w, for_outputs P (output :: rest) w = for_outputs P rest w) /\
  (forall C w image data pre post,
     selectedImage (ui w) = Some image ->
     succeeds_with P C image data ->
     field data "outputs" = Some (JArr (pre ++ output :: post)) ->
     Forall (passed_over P) pre -> Forall (passed_over P) post ->
     shows (after_detect P C w) NoPredictionFound).
Proof.
  intros Hlead Hcls Hc.
  assert (Hr : raises output = false).
  { unfold raises. rewrite Hlead.
    destruct output; try discriminate Hlead.
    destruct entry; try discriminate Hcls.
    cbn [field] in *. rewrite Hcls. reflexivity. }
  assert (Hq : qualifies P entry = None).
  { unfold qualifies. rewrite Hcls, Hc. reflexivity. }
  assert (Hp : passed_over P output).
  { split; [exact Hr|]. rewrite Hlead. exact Hq. }
  split; [|split].
  - rewrite (accepted_qualifies P output entry Hlead Hr). rewrite Hq. reflexivity.
  - intros rest w. rewrite !for_outputs_search.
    rewrite (search_passed_over P output rest Hp). reflexivity.
  - intros C w image data pre post Himg Hok Hout Hpre Hpost.
    assert (Hscan : scan P data = inr None).
    { rewrite (scan_outputs P _ _ Hout). apply search_none.
      apply Forall_app. split; [exact Hpre|]. constructor; assumption. }
    destruct (no_prediction_shown P C w image data Himg Hok Hscan) as (He & Hd & _).
    split; assumption.
Qed.

Lemma empty_class_is_rejected_witness :
  let P := stub_for (response_of empty_then_newcastle) in
  accepted P (Some (prediction (JStr "") (JNum 0.9))) = inr None /\
  (forall rest w,
     for_outputs P (output_with (prediction (JStr "") (JNum 0.9)) :: rest) w
     = for_outputs P rest w) /\
  (forall C w image data pre post,
     selectedImage (ui w) = Some image ->
     succeeds_with P C image data ->
     field data "outputs"
       = Some (JArr (pre ++ output_with (prediction (JStr "") (JNum 0.9)) :: post)) ->
     Forall (passed_over P) pre -> Forall (passed_over P) post ->
     shows (after_detect P C w) NoPredictionFound).
Proof.
  apply (empty_class_is_rejected
           (stub_for (response_of empty_then_newcastle))
           (output_with (prediction (JStr "") (JNum 0.9)))
           (prediction (JStr "") (JNum 0.9)) 0.9%float);
    reflexivity.
Defined.

(** ** Preconditions and failures *)

(** C5. Invoked with no image selected, the handler returns at once:
    the outcome is [NoImageSelected], the trace is unchanged (the file is
    not read and no network call is made), and the only change to the
    state is the error message. *)
Theorem no_image_no_network (P : Platform) (C : Collaborators) (w : World) :
  selectedImage (ui w) = None ->
  fst (handleDetectDisease P C w) = inr tt /\
  shows (after_detect P C w) NoImageSelected /\
  trace (snd (handleDetectDisease P C w)) = trace w /\
  after_detect P C w = with_errorMessage select_image_message (ui w).
Proof.
  intros Himg. unfold after_detect, handleDetectDisease. rewrite Himg.
  repeat split.
Qed.

Lemma no_image_no_network_witness :
  let P := stub_platform [] in
  let w := {| ui := initial_ui; trace := [] |} in
  fst (handleDetectDisease P ok_server w) = inr tt /\
  shows (after_detect P ok_server w) NoImageSelected /\
  trace (snd (handleDetectDisease P ok_server w)) = trace w /\
  after_detect P ok_server w = with_errorMessage select_image_message (ui w).
Proof.
  apply (no_image_no_network (stub_platform []) ok_server
           {| ui := initial_ui; trace := [] |}).
  reflexivity.
Defined.

(** C6 (as amended). When the request is answered with status 401
    and the body text [errorText] is read, the outcome is
    [RequestFailed] with a reason that
    mentions "Unauthorized", the API key and the access, no detection is
    shown, and the diagnostic slot holds the body: pretty-printed when
    [JSON.parse] accepts it, as received otherwise. *)
Theorem unauthorized_is_reported
    (P : Platform) (C : Collaborators) (w : World) (image : File)
    (response : Response) (errorText : string) :
  selectedImage (ui w) = Some image ->
  answers P C image response ->
  status response = 401 ->
  body response = inr errorText ->
  shows (after_detect P C w) (RequestFailed unauthorized_reason) /\
  mentions unauthorized_reason "Unauthorized" = true /\
  mentions unauthorized_reason "API key" = true /\
  mentions unauthorized_reason "access" = true /\
  detectionResult (after_detect P C w) = "" /\
  rawApiResponse (after_detect P C w)
  = match JSON_parse P errorText with
    | inr parsed => JSON_stringify P parsed 2
    | inl _ => errorText
    end.
Proof.
  intros Himg Hans Hst Hbody.
  rewrite (after_detect_with_image P C w image Himg).
  rewrite (summary_answered P C image response Hans).
  unfold ok. rewrite Hst, Hbody. cbn [Z.leb Z.compare Pos.compare Pos.compare_cont
    andb negb]. 
  unfold status_error. rewrite Hst. cbn [Z.eqb Pos.eqb].
  repeat split.
Qed.

Lemma unauthorized_is_reported_witness :
  let P := stub_platform [("{}", JObj [])] in
  let s := after_detect P (unauthorized_server "<html>401</html>") (with_image a_file) in
  shows s (RequestFailed unauthorized_reason) /\
  mentions unauthorized_reason "Unauthorized" = true /\
  mentions unauthorized_reason "API key" = true /\
  mentions unauthorized_reason "access" = true /\
  detectionResult s = "" /\
  rawApiResponse s
  = match JSON_parse P "<html>401</html>" with
    | inr parsed => JSON_stringify P parsed 2
    | inl _ => "<html>401</html>"
    end.
Proof.
  apply (unauthorized_is_reported
           (stub_platform [("{}", JObj [])])
           (unauthorized_server "<html>401</html>") (with_image a_file) a_file
           {| status := 401; body := inr "<html>401</html>" |}
           "<html>401</html>").
  - reflexivity.
  - exists "data:image/png;base64,aGVu". split; reflexivity.
  - reflexivity.
  - reflexivity.
Defined.

(** C6, as stated, fails: the body of the response is read before its
    status is looked at, so when the body of a 401 response cannot be
    read the reason shown is that of the read, which mentions neither
    "Unauthorized" nor the key, and the diagnostic slot is empty. *)
Lemma unauthorized_unread_body :
  let s := after_detect (stub_platform []) unauthorized_unreadable
             (with_image a_file) in
  answers (stub_platform []) unauthorized_unreadable a_file
    {| status := 401; body := inl (ErrorObject TypeError "network error") |} /\
  errorMessage s = "Failed to detect disease: network error." /\
  mentions (errorMessage s) "Unauthorized" = false /\
  mentions (errorMessage s) "API key" = false /\
  rawApiResponse s = "".
Proof.
  split; [exists "data:image/png;base64,aGVu"; split; reflexivity|].
  repeat split.
Qed.

(** ** One outcome per invocation *)

(** When the [try] block threw it wrote no detection; when it completed
    it wrote one of the two detection messages. *)
Lemma summary_shape (P : Platform) (C : Collaborators) (image : File) :
  match threw (summary P C image) with
  | Some _ => result_written (summary P C image) = None
  | None =>
      result_written (summary P C image) = Some no_prediction_message \/
      exists cls c,
        result_written (summary P C image)
        = Some (detected_message cls (confidence_text P c))
  end.
Proof.
  unfold summary.
  destruct (readAsDataURL C image) as [e|result]; [reflexivity|].
  destruct (fetch C ROBOTFLOW_WORKFLOW_ENDPOINT _) as [e|response]; [reflexivity|].
  destruct (negb (ok response)).
  - destruct (body response); reflexivity.
  - destruct (response_json P response) as [e|data]; [reflexivity|].
    unfold interpreted. destruct (scan P data) as [e|[[cls c]|]]; cbn.
    + reflexivity.
    + right. exists cls, c. reflexivity.
    + left. reflexivity.
Qed.

(** C2, at a failing input. The file cannot be read: the reader's
    [onerror] hands the promise an event, which has no [message]
    property, so the reason shown is the text "undefined". (The rejection
    is caught, the handler returns normally and no request is sent.) *)
Theorem unreadable_file_reason :
  let r := handleDetectDisease (stub_platform []) unreadable (with_image a_file) in
  readAsDataURL unreadable a_file = inl NoMessage /\
  fst r = inr tt /\
  errorMessage (ui (snd r)) = "Failed to detect disease: undefined." /\
  detectionResult (ui (snd r)) = "" /\
  network_calls (trace (snd r)) = 0%nat.
Proof. repeat split. Qed.

(** X15. With an image selected, whatever the collaborators answer
    and whatever the state held before: the handler returns normally, the
    loading flag ends clear, and exactly one of the two messages is set.
    If the [try] block throws an object, the error message is "Failed to
    detect disease: ", the text of the object's [message] and a full stop
    (the text "undefined" when the object has none), and no detection is
    shown; if it completes, there is no error message and the detection
    is one of the two detection messages. The three texts left do not
    depend on what the state held before. *)
Theorem thrown_objects_are_shown
    (P : Platform) (C : Collaborators) (w : World) (image : File) :
  selectedImage (ui w) = Some image ->
  fst (handleDetectDisease P C w) = inr tt /\
  isLoading (after_detect P C w) = false /\
  one_message (after_detect P C w) /\
  (forall e,
     fst (detect_body P C image (started w)) = inl e ->
     errorMessage (after_detect P C w)
     = "Failed to detect disease: " ++ message_text e ++ "." /\
     detectionResult (after_detect P C w) = "") /\
  (fst (detect_body P C image (started w)) = inr tt ->
   errorMessage (after_detect P C w) = "" /\
   (detectionResult (after_detect P C w) = no_prediction_message \/
    exists cls c,
      detectionResult (after_detect P C w)
      = detected_message cls (confidence_text P c))) /\
  (forall w0,
     selectedImage (ui w0) = Some image ->
     errorMessage (after_detect P C w0) = errorMessage (after_detect P C w) /\
     detectionResult (after_detect P C w0) = detectionResult (after_detect P C w) /\
     rawApiResponse (after_detect P C w0) = rawApiResponse (after_detect P C w)).
Proof.
  intros Himg.
  assert (Hbody : fst (detect_body P C image (started w))
                  = completion (summary P C image)).
  { unfold started. rewrite detect_body_summary. reflexivity. }
  assert (Hfree : forall w0,
     selectedImage (ui w0) = Some image ->
     errorMessage (after_detect P C w0) = errorMessage (after_detect P C w) /\
     detectionResult (after_detect P C w0) = detectionResult (after_detect P C w) /\
     rawApiResponse (after_detect P C w0) = rawApiResponse (after_detect P C w)).
  { intros w0 H0. rewrite (after_detect_with_image P C w0 image H0).
    rewrite (after_detect_with_image P C w image Himg). repeat split. }
  rewrite Hbody. rewrite (after_detect_with_image P C w image Himg) in *.
  rewrite (handle_with_image P C w image Himg).
  pose proof (summary_shape P C image) as Hs.
  unfold one_message, completion.
  cbn [fst final_ui isLoading errorMessage detectionResult rawApiResponse].
  split; [reflexivity|]. split; [reflexivity|].
  split; [|split; [|split; [|exact Hfree]]]; clear Hfree;
    destruct (threw (summary P C image)) as [e|].
  - rewrite Hs. left. split; [discriminate | reflexivity].
  - right. split; [reflexivity|].
    destruct Hs as [Hs|(cls & c & Hs)]; rewrite Hs; discriminate.
  - rewrite Hs. intros e' [= <-]. split; reflexivity.
  - discriminate.
  - discriminate.
  - intros _. split; [reflexivity|].
    destruct Hs as [Hs|(cls & c & Hs)]; rewrite Hs; cbn [or_empty].
    + left. reflexivity.
    + right. exists cls, c. reflexivity.
Qed.

Lemma thrown_objects_are_shown_witness :
  let P := stub_platform [] in
  let C := offline in
  let w := with_image a_file in
  fst (handleDetectDisease P C w) = inr tt /\
  isLoading (after_detect P C w) = false /\
  one_message (after_detect P C w) /\
  (forall e,
     fst (detect_body P C a_file (started w)) = inl e ->
     errorMessage (after_detect P C w)
     = "Failed to detect disease: " ++ message_text e ++ "." /\
     detectionResult (after_detect P C w) = "") /\
  (fst (detect_body P C a_file (started w)) = inr tt ->
   errorMessage (after_detect P C w) = "" /\
   (detectionResult (after_detect P C w) = no_prediction_message \/
    exists cls c,
      detectionResult (after_detect P C w)
      = detected_message cls (confidence_text P c))) /\
  (forall w0,
     selectedImage (ui w0) = Some a_file ->
     errorMessage (after_detect P C w0) = errorMessage (after_detect P C w) /\
     detectionResult (after_detect P C w0) = detectionResult (after_detect P C w) /\
     rawApiResponse (after_detect P C w0) = rawApiResponse (after_detect P C w)).
Proof.
  apply (thrown_objects_are_shown (stub_platform []) offline (with_image a_file) a_file).
  reflexivity.
Defined.

(** ** The diagnostic text *)

Lemma search_printer (P : Platform) printer (outputs : list json) :
  search (with_printer P printer) outputs = search P outputs.
Proof.
  induction outputs as [|output rest IH]; [reflexivity|].
  cbn [search]. rewrite IH. reflexivity.
Qed.

(** The printer of the diagnostic text changes neither what the [try]
    block throws nor the detection it writes. *)
Lemma summary_printer (P : Platform) printer (C : Collaborators) (image : File) :
  threw (summary (with_printer P printer) C image) = threw (summary P C image) /\
  result_written (summary (with_printer P printer) C image)
  = result_written (summary P C image).
Proof.
  unfold summary.
  destruct (readAsDataURL C image) as [e|result]; [split; reflexivity|].
  change (request_text (with_printer P printer) (base64_of result))
    with (request_text P (base64_of result)).
  destruct (fetch C ROBOTFLOW_WORKFLOW_ENDPOINT _) as [e|response];
    [split; reflexivity|].
  destruct (negb (ok response)).
  - destruct (body response); split; reflexivity.
  - change (response_json (with_printer P printer) response)
      with (response_json P response).
    destruct (response_json P response) as [e|data]; [split; reflexivity|].
    unfold interpreted, scan.
    change (get (with_printer P printer)) with (get P).
    destruct (get P (Some data) "outputs") as [e|outputs]; cbn [bindE];
      [split; reflexivity|].
    destruct (truthy outputs && isArray outputs).
    + rewrite search_printer.
      destruct (search P (elements outputs)) as [e|[[cls c]|]]; split; reflexivity.
    + split; reflexivity.
Qed.

(** C3 (as amended). With an image selected: a body received with a
    failure status is kept in the diagnostic slot, pretty-printed when it
    parses and as received otherwise; a body received with a success
    status that parses is kept pretty-printed, whether the outcome is
    [Success], [NoPredictionFound] or a failure of the search; when the
    file read or the request is rejected the slot is empty. The error
    message and the detection shown do not depend on the capture: not on
    the printer of the diagnostic text, not on the text the slot held
    before and, for a failure status, not on whether [JSON.parse] accepts
    the body (they are the same on any host that sends the same
    request). *)
Theorem diagnostic_is_a_side_channel
    (P : Platform) (C : Collaborators) (w : World) (image : File) :
  selectedImage (ui w) = Some image ->
  (forall response errorText,
     answers P C image response -> ok response = false ->
     body response = inr errorText ->
     rawApiResponse (after_detect P C w) = diagnostic P errorText) /\
  (forall data,
     succeeds_with P C image data ->
     rawApiResponse (after_detect P C w) = JSON_stringify P data 2) /\
  (forall e,
     readAsDataURL C image = inl e -> rawApiResponse (after_detect P C w) = "") /\
  (forall result e,
     readAsDataURL C image = inr result ->
     fetch C ROBOTFLOW_WORKFLOW_ENDPOINT (request_text P (base64_of result)) = inl e ->
     rawApiResponse (after_detect P C w) = "") /\
  (forall printer text,
     errorMessage (after_detect (with_printer P printer) C (with_diagnostic text w))
     = errorMessage (after_detect P C w) /\
     detectionResult (after_detect (with_printer P printer) C (with_diagnostic text w))
     = detectionResult (after_detect P C w)) /\
  (forall P' response errorText text,
     (forall base64Image, request_text P' base64Image = request_text P base64Image) ->
     answers P C image response -> ok response = false ->
     body response = inr errorText ->
     errorMessage (after_detect P' C (with_diagnostic text w))
     = errorMessage (after_detect P C w) /\
     detectionResult (after_detect P' C (with_diagnostic text w))
     = detectionResult (after_detect P C w)).
Proof.
  intros Himg.
  assert (Hlast : forall P' response errorText text,
     (forall base64Image, request_text P' base64Image = request_text P base64Image) ->
     answers P C image response -> ok response = false ->
     body response = inr errorText ->
     errorMessage (after_detect P' C (with_diagnostic text w))
     = errorMessage (after_detect P C w) /\
     detectionResult (after_detect P' C (with_diagnostic text w))
     = detectionResult (after_detect P C w)).
  { intros P' response errorText text Hreq Hans Hok Hb.
    assert (Hans' : answers P' C image response).
    { destruct Hans as (result & Hr & Hf). exists result.
      split; [exact Hr|]. rewrite Hreq. exact Hf. }
    rewrite (after_detect_with_image P' C (with_diagnostic text w) image Himg).
    rewrite (after_detect_with_image P C w image Himg).
    rewrite (summary_answered P' C image response Hans').
    rewrite (summary_answered P C image response Hans).
    rewrite Hok, Hb. split; reflexivity. }
  split; [|split; [|split; [|split; [|split; [|exact Hlast]]]]];
    rewrite ?(after_detect_with_image P C w image Himg).
  - intros response errorText Hans Hok Hb.
    rewrite (summary_answered P C image response Hans), Hok, Hb. reflexivity.
  - intros data Hok. rewrite (summary_success P C image data Hok).
    unfold interpreted. destruct (scan P data) as [e|[[cls c]|]]; reflexivity.
  - intros e He. unfold summary. rewrite He. reflexivity.
  - intros result e Hr He. unfold summary. rewrite Hr, He. reflexivity.
  - intros printer text.
    rewrite (after_detect_with_image (with_printer P printer) C
               (with_diagnostic text w) image Himg).
    cbn [final_ui errorMessage detectionResult].
    rewrite (proj1 (summary_printer P printer C image)).
    rewrite (proj2 (summary_printer P printer C image)). split; reflexivity.
Qed.

Lemma diagnostic_is_a_side_channel_witness :
  let P := stub_for (response_of chicken_newcastle_gumboro) in
  let C := ok_server in
  let w := with_image a_file in
  (forall response errorText,
     answers P C a_file response -> ok response = false ->
     body response = inr errorText ->
     rawApiResponse (after_detect P C w) = diagnostic P errorText) /\
  (forall data,
     succeeds_with P C a_file data ->
     rawApiResponse (after_detect P C w) = JSON_stringify P data 2) /\
  (forall e,
     readAsDataURL C a_file = inl e -> rawApiResponse (after_detect P C w) = "") /\
  (forall result e,
     readAsDataURL C a_file = inr result ->
     fetch C ROBOTFLOW_WORKFLOW_ENDPOINT (request_text P (base64_of result)) = inl e ->
     rawApiResponse (after_detect P C w) = "") /\
  (forall printer text,
     errorMessage (after_detect (with_printer P printer) C (with_diagnostic text w))
     = errorMessage (after_detect P C w) /\
     detectionResult (after_detect (with_printer P printer) C (with_diagnostic text w))
     = detectionResult (after_detect P C w)) /\
  (forall P' response errorText text,
     (forall base64Image, request_text P' base64Image = request_text P base64Image) ->
     answers P C a_file response -> ok response = false ->
     body response = inr errorText ->
     errorMessage (after_detect P' C (with_diagnostic text w))
     = errorMessage (after_detect P C w) /\
     detectionResult (after_detect P' C (with_diagnostic text w))
     = detectionResult (after_detect P C w)).
Proof.
  apply (diagnostic_is_a_side_channel
           (stub_for (response_of chicken_newcastle_gumboro)) ok_server
           (with_image a_file) a_file).
  reflexivity.
Defined.

(** C3, as stated, fails: a success status with a body that is not
    valid JSON is a [RequestFailed] whose body is not kept, and after a
    rejected request or a rejected file read the slot is empty as well. *)
Lemma diagnostic_not_always_kept :
  (let s := after_detect (stub_platform []) garbled_server (with_image a_file) in
   shows s (RequestFailed "Unexpected token") /\ rawApiResponse s = "") /\
  (let s := after_detect (stub_platform []) offline (with_image a_file) in
   shows s (RequestFailed "Failed to fetch") /\ rawApiResponse s = "") /\
  (let s := after_detect (stub_platform []) unreadable (with_image a_file) in
   shows s (RequestFailed "undefined") /\ rawApiResponse s = "").
Proof. repeat split. Qed.

(** ** One message at a time *)

Lemma detect_rest_summary (P : Platform) (C : Collaborators) (image : File)
    (s : UI) (tr : list Effect) :
  detect_rest P C image {| ui := s; trace := tr |} =
  (inr tt,
   {| ui := settled_ui s (summary P C image);
      trace := (tr ++ effects P C image)%list |}).
Proof.
  unfold detect_rest, try_catch_finally. rewrite detect_body_summary.
  unfold completion, settled_ui, apply_summary.
  destruct s as [si ip dr ra il em].
  destruct (summary P C image) as [[e|] raw res]; cbn;
    destruct raw, res; reflexivity.
Qed.

(** A call that is invoked and finishes with nothing in between is the
    handler run in one go. *)
Lemma invoke_then_settle (P : Platform) (C : Collaborators) (r : Running) :
  in_flight r = [] ->
  world (step P (step P r (Invoke C)) (Settle 0))
  = snd (handleDetectDisease P C (world r)).
Proof.
  intros Hidle. destruct r as [[s tr] calls]. cbn [in_flight] in Hidle. subst calls.
  unfold step, invoke. cbn [world ui in_flight].
  destruct (selectedImage s) as [image|] eqn:Himg.
  - cbn [in_flight app nth_error world call_collaborators call_image].
    unfold started. cbn [ui trace]. rewrite detect_rest_summary.
    rewrite (handle_with_image P C {| ui := s; trace := tr |} image Himg).
    destruct s as [si ip dr ra il em]. reflexivity.
  - cbn [in_flight nth_error]. unfold handleDetectDisease. cbn [ui].
    rewrite Himg. reflexivity.
Qed.

Lemma page_invariant_step (P : Platform) (r : Running) (e : Event) :
  from_the_page e -> page_invariant r -> page_invariant (step P r e).
Proof.
  intros He [Hcalls Hprev].
  destruct r as [[s tr] calls]. unfold page_invariant in *.
  cbn [world in_flight ui] in *.
  destruct e as [file|C|C|n]; [| contradiction He | |].
  - (* the file input changes *)
    cbn [step world in_flight ui]. split.
    + destruct calls as [|call [|call' rest]]; [| |contradiction Hcalls].
      * destruct Hcalls as (Hl & _). destruct file; cbn; rewrite Hl;
          (split; [reflexivity|]); (split; [left; reflexivity|]);
          intros H; contradiction.
      * destruct Hcalls as (Hl & _). destruct file; cbn; rewrite Hl;
          repeat split.
    + destruct file; cbn; [discriminate | reflexivity].
  - (* a click *)
    cbn [step].
    destruct (detect_disabled
                (render (ui (world {| world := {| ui := s; trace := tr |};
                                      in_flight := calls |})))) eqn:Hd;
      [split; [exact Hcalls | exact Hprev]|].
    cbn [world ui render detect_disabled] in Hd.
    apply orb_false_iff in Hd. destruct Hd as [Hl Hsel].
    destruct (selectedImage s) as [image|] eqn:Himg; [|discriminate Hsel].
    unfold invoke. cbn [world ui in_flight]. rewrite Himg.
    cbn [world in_flight ui].
    destruct calls as [|call [|call' rest]]; [| |contradiction Hcalls].
    + cbn [app]. split; [repeat split|].
      unfold started. cbn. intros H. congruence.
    + destruct Hcalls as (Hl' & _). congruence.
  - (* a call finishes *)
    cbn [step in_flight].
    destruct calls as [|call [|call' rest]]; [| |contradiction Hcalls].
    + destruct n; cbn [nth_error]; split; assumption.
    + destruct n as [|n]; cbn [nth_error];
        [|destruct n; cbn [nth_error]; split; assumption].
      cbn [world in_flight remove_nth]. rewrite detect_rest_summary.
      cbn [snd ui settled_ui selectedImage imagePreviewUrl isLoading
           errorMessage detectionResult rawApiResponse].
      destruct Hcalls as (_ & Hem & Hdr & Hra). rewrite Hem, Hdr, Hra.
      pose proof (summary_shape P (call_collaborators call) (call_image call)) as Hs.
      split; [|exact Hprev]. split; [reflexivity|].
      destruct (threw (summary P (call_collaborators call) (call_image call)))
        as [e|].
      * rewrite Hs. split; [right; reflexivity|].
        intros _. left. discriminate.
      * split; [left; reflexivity|]. intros _. right.
        destruct Hs as [Hs|(cls & c & Hs)]; rewrite Hs; discriminate.
Qed.

Lemma page_invariant_run (P : Platform) (events : list Event) :
  Forall from_the_page events -> page_invariant (run P events).
Proof.
  unfold run.
  assert (Hgen : forall r, page_invariant r -> Forall from_the_page events ->
                           page_invariant (fold_left (step P) events r)).
  { induction events as [|e events IH]; intros r Hr Hall; [exact Hr|].
    cbn [fold_left]. inversion Hall as [|e' l He Hrest]; subst.
    apply IH; [|exact Hrest]. exact (page_invariant_step P r e He Hr). }
  apply Hgen. split; [|reflexivity]. cbn.
  split; [reflexivity|]. split; [left; reflexivity|]. intros H. contradiction.
Qed.

(** C4 (as amended). While the component is driven through its page
    (the file input, and the "Detect Disease" button, which is disabled
    while a call is pending or no image is selected; calls may finish
    after the file input has changed): the error message and the
    detection result are never both set; when a call finishes, exactly
    one of them is set, and the two are what the handler leaves for that
    call from any state, so what was shown before is replaced. An
    invocation with no image selected, which the page never makes, sets
    the error message and leaves the detection result as it was. *)
Theorem one_message_at_a_time (P : Platform) (events : list Event) :
  Forall from_the_page events ->
  ~ (errorMessage (ui (world (run P events))) <> "" /\
     detectionResult (ui (world (run P events))) <> "") /\
  (forall call n,
     nth_error (in_flight (run P events)) n = Some call ->
     let after := ui (world (step P (run P events) (Settle n))) in
     one_message after /\
     forall w0,
       selectedImage (ui w0) = Some (call_image call) ->
       errorMessage after
       = errorMessage (after_detect P (call_collaborators call) w0) /\
       detectionResult after
       = detectionResult (after_detect P (call_collaborators call) w0)) /\
  (forall C w,
     selectedImage (ui w) = None ->
     errorMessage (after_detect P C w) = select_image_message /\
     detectionResult (after_detect P C w) = detectionResult (ui w)).
Proof.
  intros Hpage. pose proof (page_invariant_run P events Hpage) as [Hcalls _].
  destruct (run P events) as [[s tr] calls].
  cbn [world in_flight ui] in *. split; [|split].
  - destruct calls as [|call [|call' rest]]; [| |contradiction Hcalls].
    + destruct Hcalls as (_ & [He|Hd] & _); intros [H1 H2]; contradiction.
    + destruct Hcalls as (_ & He & _). intros [H1 _]. contradiction.
  - intros call n Hn.
    destruct calls as [|call0 [|call' rest]]; [| |contradiction Hcalls].
    + destruct n; discriminate Hn.
    + destruct n as [|n]; [|destruct n; discriminate Hn].
      cbn [nth_error] in Hn. injection Hn as ->.
      cbn [step in_flight nth_error world]. rewrite detect_rest_summary.
      cbn [snd ui]. destruct Hcalls as (_ & Hem & Hdr & _).
      pose proof (summary_shape P (call_collaborators call) (call_image call)) as Hs.
      unfold one_message.
      cbn [settled_ui errorMessage detectionResult]. rewrite Hem, Hdr. split.
      * destruct (threw (summary P (call_collaborators call) (call_image call)))
          as [e|].
        -- rewrite Hs. left. split; [discriminate | reflexivity].
        -- right. split; [reflexivity|].
           destruct Hs as [Hs|(cls & c & Hs)]; rewrite Hs; discriminate.
      * intros w0 H0.
        rewrite (after_detect_with_image P _ w0 _ H0).
        cbn [final_ui errorMessage detectionResult].
        destruct (threw (summary P (call_collaborators call) (call_image call)))
          as [e|]; [rewrite Hs|]; split; reflexivity.
  - intros C w Hnone. rewrite (after_detect_without_image P C w Hnone).
    split; reflexivity.
Qed.

Lemma one_message_at_a_time_witness :
  let P := stub_for (response_of chicken_newcastle_gumboro) in
  let events := [Change (Some a_file); Click ok_server; Change None] in
  ~ (errorMessage (ui (world (run P events))) <> "" /\
     detectionResult (ui (world (run P events))) <> "") /\
  (forall call n,
     nth_error (in_flight (run P events)) n = Some call ->
     let after := ui (world (step P (run P events) (Settle n))) in
     one_message after /\
     forall w0,
       selectedImage (ui w0) = Some (call_image call) ->
       errorMessage after
       = errorMessage (after_detect P (call_collaborators call) w0) /\
       detectionResult after
       = detectionResult (after_detect P (call_collaborators call) w0)) /\
  (forall C w,
     selectedImage (ui w) = None ->
     errorMessage (after_detect P C w) = select_image_message /\
     detectionResult (after_detect P C w) = detectionResult (ui w)).
Proof.
  apply (one_message_at_a_time
           (stub_for (response_of chicken_newcastle_gumboro))
           [Change (Some a_file); Click ok_server; Change None]).
  repeat constructor.
Defined.

(** C4, as stated, fails. The choice of file is cleared while a
    request is pending; the response arrives and the detection is shown
    with no image selected; an invocation in that state takes the
    no-image branch, which sets the error message and does not clear the
    detection: both messages are set and both panels are rendered. *)
Lemma stale_result_beside_error :
  let P := stub_for (response_of [newcastle]) in
  let before := world (run P cleared_while_pending) in
  let after := after_detect P ok_server before in
  in_flight (run P cleared_while_pending) = [] /\
  selectedImage (ui before) = None /\
  after = ui (world (step P (run P cleared_while_pending) (Invoke ok_server))) /\
  errorMessage after = "Please select an image first." /\
  detectionResult after = "Detected: Newcastle Disease (Confidence: 87.34%)" /\
  error_panel (render after) <> None /\
  result_panel (render after) <> None.
Proof.
  vm_compute. repeat split; discriminate.
Qed.

(** ** Responses on which the search raises *)

(** C7, at a failing input: the first leading entry is "Chicken", the
    only other output has a leading entry whose class is the number 5,
    so no output has a qualifying leading entry; the handler does not
    show [NoPredictionFound] but the [TypeError] raised by
    [topPrediction.class.toLowerCase()]. *)
Theorem chicken_then_mistyped_outcome :
  let s := after_detect (stub_for (response_of chicken_then_mistyped)) ok_server
             (with_image a_file) in
  first_match (qualifies_as_stated (stub_for (response_of chicken_then_mistyped)))
    chicken_then_mistyped = None /\
  shows s (RequestFailed "topPrediction.class.toLowerCase is not a function") /\
  detectionResult s = "" /\
  detectionResult s <> no_prediction_message.
Proof. repeat split. discriminate. Qed.

(** C9, at a failing input: the only leading entry has a mistyped
    class, the number 5, and a numeric confidence; the handler does not
    show [NoPredictionFound] but the [TypeError] raised by
    [topPrediction.class.toLowerCase()]. *)
Theorem mistyped_class_outcome :
  let s := after_detect (stub_for (response_of mistyped_class)) ok_server
             (with_image a_file) in
  first_match (qualifies_as_stated (stub_for (response_of mistyped_class)))
    mistyped_class = None /\
  shows s (RequestFailed "topPrediction.class.toLowerCase is not a function") /\
  detectionResult s = "" /\
  detectionResult s <> no_prediction_message.
Proof. repeat split. discriminate. Qed.

(** ** Responses without a prediction *)

(** An output whose leading entry is "chicken" in any letter case is
    passed over. *)
Lemma chicken_is_passed_over (P : Platform) (output entry : json) (cls : string) :
  leading_entry output = Some entry ->
  field entry "class" = Some (JStr cls) ->
  is_chicken P cls = true ->
  passed_over P output.
Proof.
  intros Hlead Hcls Hch. split.
  - unfold raises. rewrite Hlead. destruct output; try discriminate Hlead.
    destruct entry; try discriminate Hcls. rewrite Hcls. reflexivity.
  - rewrite Hlead. unfold qualifies. rewrite Hcls, Hch, orb_true_r.
    destruct (field entry "confidence") as [[]|]; reflexivity.
Qed.

(** So is an output whose leading entry has no class, or a class that
    is [null], [false], [0] or the empty string. *)
Lemma falsy_class_is_passed_over (P : Platform) (output entry : json) :
  leading_entry output = Some entry ->
  entry <> JNull ->
  truthy (field entry "class") = false ->
  passed_over P output.
Proof.
  intros Hlead Hnull Hcls. split.
  - unfold raises. rewrite Hlead. destruct output; try discriminate Hlead.
    destruct entry as [| b | x | s | items | fields];
      try congruence; try reflexivity.
    destruct (field (JObj fields) "class") as [[]|]; try reflexivity;
      rewrite Hcls; reflexivity.
  - rewrite Hlead. unfold qualifies.
    destruct (field entry "class") as [[| b | x | s | items | o]|]; try reflexivity.
    cbn [truthy] in Hcls. apply negb_false_iff in Hcls. rewrite Hcls.
    destruct (field entry "confidence") as [[]|]; reflexivity.
Qed.

(** So is an output whose leading entry has no confidence, or one that
    is not a number. *)
Lemma non_numeric_confidence_is_passed_over (P : Platform) (output entry : json) :
  leading_entry output = Some entry ->
  entry <> JNull ->
  typeof_number (field entry "confidence") = false ->
  passed_over P output.
Proof.
  intros Hlead Hnull Hc. split.
  - unfold raises. rewrite Hlead. destruct output; try discriminate Hlead.
    destruct entry as [| b | x | s | items | fields];
      try congruence; try reflexivity.
    rewrite Hc.
    destruct (field (JObj fields) "class") as [[]|];
      rewrite ?andb_false_r; reflexivity.
  - rewrite Hlead. unfold qualifies.
    destruct (field entry "class") as [[]|]; try reflexivity.
    destruct (field entry "confidence") as [[]|]; try reflexivity.
    discriminate Hc.
Qed.

(** X1. On a successful response whose data is not [null] and whose
    [outputs] is absent, not an array, or an empty array, the outcome is
    [NoPredictionFound]. *)
Theorem no_outputs_no_prediction
    (P : Platform) (C : Collaborators) (w : World) (image : File) (data : json) :
  selectedImage (ui w) = Some image ->
  succeeds_with P C image data ->
  data <> JNull ->
  isArray (field data "outputs") = false \/ field data "outputs" = Some (JArr []) ->
  shows (after_detect P C w) NoPredictionFound /\
  rawApiResponse (after_detect P C w) = JSON_stringify P data 2.
Proof.
  intros Himg Hok Hnull Hout.
  assert (Hscan : scan P data = inr None).
  { unfold scan.
    assert (Hget : get P (Some data) "outputs" = inr (field data "outputs"))
      by (destruct data; try reflexivity; congruence).
    rewrite Hget. cbn [bindE].
    destruct Hout as [Hna|Hempty].
    - rewrite Hna, andb_false_r. reflexivity.
    - rewrite Hempty. reflexivity. }
  destruct (no_prediction_shown P C w image data Himg Hok Hscan) as (He & Hd & Hr).
  split; [split|]; assumption.
Qed.

Lemma no_outputs_no_prediction_witness :
  let s := after_detect (stub_for (response_of [])) ok_server (with_image a_file) in
  shows s NoPredictionFound /\
  rawApiResponse s = JSON_stringify (stub_for (response_of [])) (response_of []) 2.
Proof.
  apply (no_outputs_no_prediction (stub_for (response_of [])) ok_server
           (with_image a_file) a_file (response_of [])).
  - reflexivity.
  - apply ok_server_succeeds.
  - discriminate.
  - right. reflexivity.
Defined.

(** X2. On a successful response every output of which is passed over
    (it raises no [TypeError] and its leading entry, if any, does not
    qualify), the outcome is [NoPredictionFound]. *)
Theorem all_passed_over_no_prediction
    (P : Platform) (C : Collaborators) (w : World) (image : File)
    (data : json) (outputs : list json) :
  selectedImage (ui w) = Some image ->
  succeeds_with P C image data ->
  field data "outputs" = Some (JArr outputs) ->
  Forall (passed_over P) outputs ->
  shows (after_detect P C w) NoPredictionFound.
Proof.
  intros Himg Hok Hout Hall.
  assert (Hscan : scan P data = inr None).
  { rewrite (scan_outputs P _ _ Hout). exact (search_none P outputs Hall). }
  destruct (no_prediction_shown P C w image data Himg Hok Hscan) as (He & Hd & _).
  split; assumption.
Qed.

Lemma all_passed_over_no_prediction_witness :
  shows
    (after_detect
       (stub_for (response_of [output_with (prediction (JStr "CHICKEN") (JNum 0.99))]))
       ok_server (with_image a_file))
    NoPredictionFound.
Proof.
  apply (all_passed_over_no_prediction
           (stub_for (response_of [output_with (prediction (JStr "CHICKEN") (JNum 0.99))]))
           ok_server (with_image a_file) a_file
           (response_of [output_with (prediction (JStr "CHICKEN") (JNum 0.99))])
           [output_with (prediction (JStr "CHICKEN") (JNum 0.99))]).
  - reflexivity.
  - apply ok_server_succeeds.
  - reflexivity.
  - constructor; [exact (chicken_passed_over _) | constructor].
Defined.

(** ** Repeated and composed invocations *)

(** X3. Invoking the handler a second time with the same
    collaborators leaves the component in the same state as the first
    invocation did, from any starting state; and an invocation never
    changes the selected image or its preview. *)
Theorem detect_twice_same_state (P : Platform) (C : Collaborators) (w : World) :
  after_detect P C (snd (handleDetectDisease P C w)) = after_detect P C w /\
  selectedImage (after_detect P C w) = selectedImage (ui w) /\
  imagePreviewUrl (after_detect P C w) = imagePreviewUrl (ui w).
Proof.
  destruct (selectedImage (ui w)) as [image|] eqn:Himg.
  - assert (Hafter : selectedImage (ui (snd (handleDetectDisease P C w))) = Some image).
    { rewrite (handle_with_image P C w image Himg). exact Himg. }
    rewrite (after_detect_with_image P C _ image Hafter).
    rewrite (after_detect_with_image P C w image Himg).
    rewrite (handle_with_image P C w image Himg).
    repeat split. exact Himg.
  - assert (Hafter : selectedImage (ui (snd (handleDetectDisease P C w))) = None).
    { rewrite (handle_without_image P C w Himg). exact Himg. }
    rewrite (after_detect_without_image P C _ Hafter).
    rewrite (after_detect_without_image P C w Himg).
    rewrite (handle_without_image P C w Himg).
    repeat split. exact Himg.
Qed.

(** X4. With an image selected, one invocation reads the file once
    and, when the read succeeds, sends exactly one request: a POST to the
    workflow endpoint with a JSON content type and the serialised
    [requestBody]. Whatever the answer (a rejection, a failure status, a
    body that does not parse), nothing is sent again; when the read
    fails, nothing is sent at all. *)
Theorem one_read_one_request
    (P : Platform) (C : Collaborators) (w : World) (image : File) :
  selectedImage (ui w) = Some image ->
  let t := trace (snd (handleDetectDisease P C w)) in
  (exists sent, t = (trace w ++ FileRead image :: sent)%list /\
     match readAsDataURL C image with
     | inl _ => sent = []
     | inr result =>
         sent = [NetworkCall ROBOTFLOW_WORKFLOW_ENDPOINT "POST"
                   [("Content-Type", "application/json")]
                   (JSON_stringify P (requestBody (base64_of result)) 0)]
     end) /\
  file_reads t = S (file_reads (trace w)) /\
  (network_calls t <= S (network_calls (trace w)))%nat.
Proof.
  intros Himg t. subst t. rewrite (handle_with_image P C w image Himg).
  cbn [snd trace]. unfold effects.
  assert (Hreads : forall a b,
             file_reads (a ++ b)%list = (file_reads a + file_reads b)%nat).
  { induction a as [|[f|u m h b'] a IH]; intros b; cbn; rewrite ?IH; reflexivity. }
  assert (Hcalls : forall a b,
             network_calls (a ++ b)%list = (network_calls a + network_calls b)%nat).
  { induction a as [|[f|u m h b'] a IH]; intros b; cbn; rewrite ?IH; reflexivity. }
  rewrite Hreads, Hcalls.
  destruct (readAsDataURL C image) as [e|result]; cbn.
  - split; [eexists; split; reflexivity|]. split; lia.
  - split; [eexists; split; reflexivity|]. split; lia.
Qed.

Lemma one_read_one_request_witness :
  let w := with_image a_file in
  let t := trace (snd (handleDetectDisease (stub_platform []) (refusing_server 500) w)) in
  (exists sent, t = (trace w ++ FileRead a_file :: sent)%list /\
     match readAsDataURL (refusing_server 500) a_file with
     | inl _ => sent = []
     | inr result =>
         sent = [NetworkCall ROBOTFLOW_WORKFLOW_ENDPOINT "POST"
                   [("Content-Type", "application/json")]
                   (JSON_stringify (stub_platform []) (requestBody (base64_of result)) 0)]
     end) /\
  file_reads t = S (file_reads (trace w)) /\
  (network_calls t <= S (network_calls (trace w)))%nat.
Proof.
  apply (one_read_one_request (stub_platform []) (refusing_server 500)
           (with_image a_file) a_file).
  reflexivity.
Defined.

(** ** What stays true while the component runs *)

Lemma shown_none (text : string) : shown text = None <-> text = "".
Proof.
  unfold shown. destruct (text =? "")%string eqn:H.
  - apply String.eqb_eq in H. split; [intros _; exact H | reflexivity].
  - apply String.eqb_neq in H. split; [discriminate | contradiction].
Qed.

(** X5. While the component is driven through its page (the file
    input and the "Detect Disease" button; calls may finish after the
    file input has changed): at most one call is in flight; the button is
    disabled exactly while a call is in flight or no image is selected;
    while a call is in flight no error, result or raw response is
    rendered; no preview is rendered without a selected image; and the
    raw response is rendered only beside an error or a result. *)
Theorem rendered_panels (P : Platform) (events : list Event) :
  Forall from_the_page events ->
  let r := run P events in
  let v := render (ui (world r)) in
  (length (in_flight r) <= 1)%nat /\
  (detect_disabled v = true <->
   in_flight r <> [] \/ selectedImage (ui (world r)) = None) /\
  (in_flight r <> [] ->
   error_panel v = None /\ result_panel v = None /\ raw_panel v = None) /\
  (selectedImage (ui (world r)) = None -> preview v = None) /\
  (raw_panel v <> None -> error_panel v <> None \/ result_panel v <> None).
Proof.
  intros Hpage r v. subst v r.
  pose proof (page_invariant_run P events Hpage) as [Hcalls Hprev].
  destruct (run P events) as [[s tr] calls].
  cbn [world in_flight ui render error_panel result_panel raw_panel preview
       detect_disabled] in *.
  rewrite !shown_none.
  destruct calls as [|call [|call' rest]]; [| |contradiction Hcalls].
  - destruct Hcalls as (Hl & Hone & Hraw). rewrite Hl. cbn [orb length].
    split; [lia|]. split; [|split; [|split]].
    + split.
      * destruct (selectedImage s); [discriminate | right; reflexivity].
      * intros [H|H]; [contradiction | rewrite H; reflexivity].
    + intros H. contradiction.
    + exact Hprev.
    + exact Hraw.
  - destruct Hcalls as (Hl & Hem & Hdr & Hra). rewrite Hl. cbn [orb length].
    split; [lia|]. split; [|split; [|split]].
    + split; [intros _; left; discriminate | reflexivity].
    + intros _. repeat split; assumption.
    + exact Hprev.
    + intros H. contradiction.
Qed.

Lemma rendered_panels_witness :
  let P := stub_for (response_of chicken_newcastle_gumboro) in
  let r := run P cleared_while_pending in
  let v := render (ui (world r)) in
  (length (in_flight r) <= 1)%nat /\
  (detect_disabled v = true <->
   in_flight r <> [] \/ selectedImage (ui (world r)) = None) /\
  (in_flight r <> [] ->
   error_panel v = None /\ result_panel v = None /\ raw_panel v = None) /\
  (selectedImage (ui (world r)) = None -> preview v = None) /\
  (raw_panel v <> None -> error_panel v <> None \/ result_panel v <> None).
Proof.
  apply (rendered_panels (stub_for (response_of chicken_newcastle_gumboro))
           cleared_while_pending).
  repeat constructor.
Defined.

(** X6. Whenever the "Detect Disease" button is rendered enabled, an
    image is selected, so a click reads that image and never ends with
    the message asking to select one. *)
Theorem enabled_button_detects (P : Platform) (C : Collaborators) (w : World) :
  detect_disabled (render (ui w)) = false ->
  exists image sent,
    selectedImage (ui w) = Some image /\
    trace (snd (handleDetectDisease P C w))
    = (trace w ++ FileRead image :: sent)%list /\
    ~ shows (after_detect P C w) NoImageSelected.
Proof.
  cbn [render detect_disabled]. intros Hd.
  apply orb_false_iff in Hd. destruct Hd as [_ Hd].
  destruct (selectedImage (ui w)) as [image|] eqn:Himg; [|discriminate Hd].
  exists image. eexists. split; [reflexivity|].
  rewrite (after_detect_with_image P C w image Himg).
  rewrite (handle_with_image P C w image Himg). cbn [snd trace]. split.
  - unfold effects. reflexivity.
  - cbn [shows final_ui errorMessage].
    destruct (threw (summary P C image)); discriminate.
Qed.

Lemma enabled_button_detects_witness :
  exists image sent,
    selectedImage (ui (with_image a_file)) = Some image /\
    trace (snd (handleDetectDisease (stub_platform []) offline (with_image a_file)))
    = (trace (with_image a_file) ++ FileRead image :: sent)%list /\
    ~ shows (after_detect (stub_platform []) offline (with_image a_file))
        NoImageSelected.
Proof.
  apply (enabled_button_detects (stub_platform []) offline (with_image a_file)).
  reflexivity.
Defined.

Lemma Forall_workflow_effects (P : Platform) (C : Collaborators) (image : File) :
  Forall (is_workflow_post P) (effects P C image).
Proof.
  unfold effects. constructor; [exact I|].
  destruct (readAsDataURL C image) as [e|result]; constructor; [|constructor].
  cbn. repeat split. exists (base64_of result). reflexivity.
Qed.

Lemma network_calls_app (a b : list Effect) :
  network_calls (a ++ b)%list = (network_calls a + network_calls b)%nat.
Proof.
  induction a as [|[f|u m h t] a IH]; cbn; rewrite ?IH; reflexivity.
Qed.

Lemma file_reads_app (a b : list Effect) :
  file_reads (a ++ b)%list = (file_reads a + file_reads b)%nat.
Proof.
  induction a as [|[f|u m h t] a IH]; cbn; rewrite ?IH; reflexivity.
Qed.

(** X7. Over any run of the component, every network call is a POST
    of a serialised [requestBody] to the workflow endpoint with a JSON
    content type (no other address is ever contacted), and there are
    never more network calls than file reads. *)
Theorem only_the_workflow_is_called (P : Platform) (w : World) :
  reachable P w ->
  Forall (is_workflow_post P) (trace w) /\
  (network_calls (trace w) <= file_reads (trace w))%nat.
Proof.
  induction 1 as [|w file _ IH|w C _ IH].
  - split; [constructor | reflexivity].
  - destruct file; exact IH.
  - destruct IH as [Hall Hle].
    destruct (selectedImage (ui w)) as [image|] eqn:Himg.
    + rewrite (handle_with_image P C w image Himg). cbn [snd trace]. split.
      * apply Forall_app. split; [exact Hall | apply Forall_workflow_effects].
      * rewrite network_calls_app, file_reads_app. unfold effects.
        destruct (readAsDataURL C image); cbn; lia.
    + rewrite (handle_without_image P C w Himg). split; assumption.
Qed.

Lemma only_the_workflow_is_called_witness :
  let P := stub_platform [] in
  let w := snd (handleDetectDisease P garbled_server
                  (snd (handleImageChange P (Some a_file)
                          {| ui := initial_ui; trace := [] |}))) in
  Forall (is_workflow_post P) (trace w) /\
  (network_calls (trace w) <= file_reads (trace w))%nat.
Proof.
  apply (only_the_workflow_is_called (stub_platform [])).
  apply reach_detect, reach_image_change, reach_initial.
Defined.

(** ** The request *)

Lemma append_String_assoc (a : string) (c : ascii) (b : string) :
  ((a ++ String c EmptyString) ++ b = a ++ String c b)%string.
Proof. induction a as [|x a IH]; cbn; [reflexivity | rewrite IH; reflexivity]. Qed.

Lemma append_empty_r (a : string) : (a ++ "" = a)%string.
Proof. induction a as [|x a IH]; cbn; [reflexivity | rewrite IH; reflexivity]. Qed.

Lemma split_acc_whole (sep : ascii) (a cur : string) :
  has_char sep a = false -> split_acc sep cur a = [(cur ++ a)%string].
Proof.
  revert cur. induction a as [|c a IH]; intros cur Hno; cbn in *.
  - rewrite append_empty_r. reflexivity.
  - apply orb_false_iff in Hno. destruct Hno as [Hc Ha]. rewrite Hc.
    rewrite (IH _ Ha), append_String_assoc. reflexivity.
Qed.

Lemma split_acc_first (sep : ascii) (a b cur : string) :
  has_char sep a = false ->
  split_acc sep cur (a ++ String sep b)
  = (cur ++ a)%string :: split_acc sep EmptyString b.
Proof.
  revert cur. induction a as [|c a IH]; intros cur Hno; cbn in *.
  - rewrite Ascii.eqb_refl, append_empty_r. reflexivity.
  - apply orb_false_iff in Hno. destruct Hno as [Hc Ha]. rewrite Hc.
    rewrite (IH _ Ha), append_String_assoc. reflexivity.
Qed.

(** [result.split(',')[1]] of a data URL is its payload. *)
Lemma base64_of_data_url (prefix payload : string) :
  has_char "," prefix = false ->
  has_char "," payload = false ->
  base64_of (prefix ++ "," ++ payload) = Some payload.
Proof.
  intros Hp Hb. unfold base64_of, split.
  change ("," ++ payload)%string with (String "," payload).
  rewrite (split_acc_first "," prefix payload "" Hp).
  rewrite (split_acc_whole "," payload "" Hb). reflexivity.
Qed.

Lemma base64_of_no_comma (result : string) :
  has_char "," result = false -> base64_of result = None.
Proof.
  intros H. unfold base64_of, split. rewrite (split_acc_whole "," result "" H).
  reflexivity.
Qed.

(** X8. When the file is read, the request that is sent carries the
    fixed API key and an image of type "base64". If the reader's result
    is a data URL [prefix,payload] (no comma in either part), the image
    value is the payload alone, without the data-URL prefix; if the result
    holds no comma at all, the request is still sent, without any image
    value. *)
Theorem request_carries_payload
    (P : Platform) (C : Collaborators) (w : World) (image : File)
    (result : string) :
  selectedImage (ui w) = Some image ->
  readAsDataURL C image = inr result ->
  exists request : json,
    trace (snd (handleDetectDisease P C w))
    = (trace w ++ [ FileRead image;
                    NetworkCall ROBOTFLOW_WORKFLOW_ENDPOINT "POST"
                      [("Content-Type", "application/json")]
                      (JSON_stringify P request 0) ])%list /\
    field_path request ["api_key"] = Some (JStr ROBOTFLOW_API_KEY) /\
    field_path request ["inputs"; "image"; "type"] = Some (JStr "base64") /\
    (forall prefix payload,
       result = (prefix ++ "," ++ payload)%string ->
       has_char "," prefix = false -> has_char "," payload = false ->
       field_path request ["inputs"; "image"; "value"] = Some (JStr payload)) /\
    (has_char "," result = false ->
     field_path request ["inputs"; "image"; "value"] = None).
Proof.
  intros Himg Hread. exists (requestBody (base64_of result)).
  rewrite (handle_with_image P C w image Himg). cbn [snd trace].
  unfold effects. rewrite Hread. split; [reflexivity|].
  split; [reflexivity|]. split; [reflexivity|]. split.
  - intros prefix payload -> Hp Hb.
    rewrite (base64_of_data_url prefix payload Hp Hb). reflexivity.
  - intros Hno. rewrite (base64_of_no_comma result Hno). reflexivity.
Qed.

Lemma request_carries_payload_witness :
  exists request : json,
    trace (snd (handleDetectDisease (stub_platform []) ok_server (with_image a_file)))
    = (trace (with_image a_file)
       ++ [ FileRead a_file;
            NetworkCall ROBOTFLOW_WORKFLOW_ENDPOINT "POST"
              [("Content-Type", "application/json")]
              (JSON_stringify (stub_platform []) request 0) ])%list /\
    field_path request ["api_key"] = Some (JStr ROBOTFLOW_API_KEY) /\
    field_path request ["inputs"; "image"; "type"] = Some (JStr "base64") /\
    (forall prefix payload,
       "data:image/png;base64,aGVu" = (prefix ++ "," ++ payload)%string ->
       has_char "," prefix = false -> has_char "," payload = false ->
       field_path request ["inputs"; "image"; "value"] = Some (JStr payload)) /\
    (has_char "," "data:image/png;base64,aGVu" = false ->
     field_path request ["inputs"; "image"; "value"] = None).
Proof.
  apply (request_carries_payload (stub_platform []) ok_server (with_image a_file)
           a_file "data:image/png;base64,aGVu"); reflexivity.
Defined.

(** ** Failure statuses *)

(** X9. For a response whose status is not in 200..299 and whose body
    text is read, no detection is shown (the body is never searched for
    predictions) and the outcome is [RequestFailed] with: the "Forbidden"
    reason for 403, the "Unprocessable Entity" reason for 422, and for any
    status other than 401, 403 and 422 a reason made of the status code
    and the body text. *)
Theorem failure_status_reasons
    (P : Platform) (C : Collaborators) (w : World) (image : File)
    (response : Response) (errorText : string) :
  selectedImage (ui w) = Some image ->
  answers P C image response ->
  ok response = false ->
  body response = inr errorText ->
  detectionResult (after_detect P C w) = "" /\
  (status response = 403 ->
   shows (after_detect P C w)
     (RequestFailed
        "API error: 403 Forbidden. Insufficient permissions/workflow not public.")) /\
  (status response = 422 ->
   shows (after_detect P C w)
     (RequestFailed
        "API error: 422 Unprocessable Entity. Request body structure incorrect.")) /\
  (status response <> 401 -> status response <> 403 -> status response <> 422 ->
   shows (after_detect P C w)
     (RequestFailed
        ("API error: " ++ number_text (status response) ++ " - " ++ errorText))).
Proof.
  intros Himg Hans Hok Hbody.
  rewrite (after_detect_with_image P C w image Himg).
  rewrite (summary_answered P C image response Hans), Hok, Hbody.
  cbn [negb final_ui shows detectionResult errorMessage threw result_written
       or_empty]. unfold status_error, failure_message.
  split; [reflexivity|]. split; [|split].
  - intros ->. reflexivity.
  - intros ->. reflexivity.
  - intros H401 H403 H422.
    apply Z.eqb_neq in H401, H403, H422. rewrite H401, H403, H422. reflexivity.
Qed.

Lemma failure_status_reasons_witness :
  let s := after_detect (stub_platform []) (refusing_server 500) (with_image a_file) in
  let response := {| status := 500; body := inr "busy" |} in
  detectionResult s = "" /\
  (status response = 403 ->
   shows s
     (RequestFailed
        "API error: 403 Forbidden. Insufficient permissions/workflow not public.")) /\
  (status response = 422 ->
   shows s
     (RequestFailed
        "API error: 422 Unprocessable Entity. Request body structure incorrect.")) /\
  (status response <> 401 -> status response <> 403 -> status response <> 422 ->
   shows s
     (RequestFailed
        ("API error: " ++ number_text (status response) ++ " - " ++ "busy"))).
Proof.
  apply (failure_status_reasons (stub_platform []) (refusing_server 500)
           (with_image a_file) a_file {| status := 500; body := inr "busy" |} "busy").
  - reflexivity.
  - exists "data:image/png;base64,aGVu". split; reflexivity.
  - reflexivity.
  - reflexivity.
Defined.

(** ** Every successful response *)

(** X10. On a successful response none of whose outputs makes the
    loop raise, the handler shows exactly what the first-match search
    over the leading entries finds: [Success] for the first qualifying
    entry, [NoPredictionFound] when there is none. *)
Theorem handler_refines_first_match
    (P : Platform) (C : Collaborators) (w : World) (image : File)
    (data : json) (outputs : list json) :
  selectedImage (ui w) = Some image ->
  succeeds_with P C image data ->
  field data "outputs" = Some (JArr outputs) ->
  Forall (fun output => raises output = false) outputs ->
  shows (after_detect P C w) (outcome_of_match P (first_match (qualifies P) outputs)).
Proof.
  intros Himg Hok Hout Hclean.
  assert (Hscan : scan P data = inr (first_match (qualifies P) outputs)).
  { rewrite (scan_outputs P _ _ Hout). exact (search_first_match P outputs Hclean). }
  destruct (first_match (qualifies P) outputs) as [[cls c]|].
  - destruct (success_shown P C w image data cls c Himg Hok Hscan) as (He & Hd & _).
    split; assumption.
  - destruct (no_prediction_shown P C w image data Himg Hok Hscan) as (He & Hd & _).
    split; assumption.
Qed.

Lemma handler_refines_first_match_witness :
  let P := stub_for (response_of chicken_newcastle_gumboro) in
  shows (after_detect P ok_server (with_image a_file))
    (outcome_of_match P (first_match (qualifies P) chicken_newcastle_gumboro)).
Proof.
  apply (handler_refines_first_match
           (stub_for (response_of chicken_newcastle_gumboro)) ok_server
           (with_image a_file) a_file (response_of chicken_newcastle_gumboro)
           chicken_newcastle_gumboro).
  - reflexivity.
  - apply ok_server_succeeds.
  - reflexivity.
  - repeat constructor.
Defined.

(** The loop raises on an output for which [raises] holds. *)
Lemma search_raises (P : Platform) (output : json) (rest : list json) :
  raises output = true ->
  search P (output :: rest) = inl (ErrorObject TypeError (raise_message P output)).
Proof.
  intros Hr. destruct output as [| b | x | s | items | o] eqn:Ho;
    try discriminate Hr; [reflexivity|].
  rewrite <- Ho in *. assert (Hnn : output <> JNull) by (rewrite Ho; discriminate).
  assert (Hr' : match leading_entry output with
                | Some JNull => true
                | Some entry =>
                    match field entry "class" with
                    | Some (JStr _) => false
                    | cls => truthy cls && typeof_number (field entry "confidence")
                    end
                | None => false
                end = true).
  { rewrite Ho in *. exact Hr. }
  assert (Hm : raise_message P output
               = match leading_entry output with
                 | Some JNull => cannot_read P "class"
                 | _ => not_a_function P "toLowerCase"
                 end).
  { rewrite Ho. reflexivity. }
  rewrite Hm. clear Hm Hr Ho.
  cbn [search]. rewrite (has_predictions_leading P output Hnn).
  destruct (leading_entry output) as [entry|] eqn:Hlead; [|discriminate Hr'].
  cbn [bindE]. rewrite (first_prediction_leading P output entry Hlead). cbn [bindE].
  destruct entry as [| b' | x' | s' | items' | fields]; try discriminate Hr';
    [reflexivity|].
  unfold accepted. cbn [get bindE field] in *.
  destruct (get_own fields "class") as [[| b | x | s | items | o']|];
    cbn [truthy] in *; try discriminate Hr'.
  - destruct b; [|discriminate Hr']. cbn [andb] in Hr'.
    destruct (get_own fields "confidence") as [[]|]; try discriminate Hr'.
    reflexivity.
  - destruct (negb (PrimFloat.is_zero x || PrimFloat.is_nan x));
      [|discriminate Hr']. cbn [andb] in Hr'.
    destruct (get_own fields "confidence") as [[]|]; try discriminate Hr'.
    reflexivity.
  - cbn [andb] in Hr'.
    destruct (get_own fields "confidence") as [[]|]; try discriminate Hr'.
    reflexivity.
  - cbn [andb] in Hr'.
    destruct (get_own fields "confidence") as [[]|]; try discriminate Hr'.
    reflexivity.
Qed.

(** Every output is passed over, raises, or has a qualifying leading
    entry. *)
Lemma output_cases (P : Platform) (output : json) :
  passed_over P output \/ raises output = true \/
  exists entry found, leading_entry output = Some entry /\ qualifies P entry = Some found.
Proof.
  destruct (raises output) eqn:Hr; [right; left; reflexivity|].
  destruct (leading_entry output) as [entry|] eqn:Hlead.
  - destruct (qualifies P entry) as [found|] eqn:Hq.
    + right. right. exists entry, found. split; [reflexivity | exact Hq].
    + left. split; [exact Hr|]. rewrite Hlead. exact Hq.
  - left. split; [exact Hr|]. rewrite Hlead. exact I.
Qed.

Lemma outputs_decompose (P : Platform) (outputs : list json) :
  Forall (passed_over P) outputs \/
  exists pre output post,
    outputs = (pre ++ output :: post)%list /\ Forall (passed_over P) pre /\
    (raises output = true \/
     exists entry found,
       leading_entry output = Some entry /\ qualifies P entry = Some found).
Proof.
  induction outputs as [|o rest IH]; [left; constructor|].
  destruct (output_cases P o) as [Hp|Hstop].
  - destruct IH as [Hall|(pre & output & post & -> & Hpre & Hcase)].
    + left. constructor; assumption.
    + right. exists (o :: pre), output, post. split; [reflexivity|].
      split; [constructor; assumption | exact Hcase].
  - right. exists [], o, rest. split; [reflexivity|]. split; [constructor|].
    exact Hstop.
Qed.

(** X11. The outcome of every successful response whose [outputs] is
    an array is decided by the first output that is not passed over:
    with none, [NoPredictionFound]; when its leading entry qualifies,
    [Success] with that entry; when it makes the loop raise (a [null]
    output, a [null] leading entry, a class that is truthy but not a
    string beside a numeric confidence), [RequestFailed] with the message
    of the [TypeError] and no detection. The outputs after it are not
    looked at. *)
Theorem successful_response_outcome
    (P : Platform) (C : Collaborators) (w : World) (image : File)
    (data : json) (outputs : list json) :
  selectedImage (ui w) = Some image ->
  succeeds_with P C image data ->
  field data "outputs" = Some (JArr outputs) ->
  (Forall (passed_over P) outputs /\ shows (after_detect P C w) NoPredictionFound) \/
  (exists pre output post entry cls c,
     outputs = (pre ++ output :: post)%list /\ Forall (passed_over P) pre /\
     leading_entry output = Some entry /\ qualifies P entry = Some (cls, c) /\
     shows (after_detect P C w) (Success cls (confidence_text P c))) \/
  (exists pre output post,
     outputs = (pre ++ output :: post)%list /\ Forall (passed_over P) pre /\
     raises output = true /\
     shows (after_detect P C w) (RequestFailed (raise_message P output)) /\
     detectionResult (after_detect P C w) = "").
Proof.
  intros Himg Hok Hout.
  pose proof (scan_outputs P data outputs Hout) as Hscan.
  destruct (outputs_decompose P outputs)
    as [Hall|(pre & output & post & Heq & Hpre & [Hr|(entry & [cls c] & Hlead & Hq)])].
  - left. split; [exact Hall|].
    rewrite (search_none P outputs Hall) in Hscan.
    destruct (no_prediction_shown P C w image data Himg Hok Hscan) as (He & Hd & _).
    split; assumption.
  - right. right. exists pre, output, post.
    split; [exact Heq|]. split; [exact Hpre|]. split; [exact Hr|].
    rewrite Heq, (search_skips P pre _ Hpre), (search_raises P output post Hr) in Hscan.
    destruct (search_failure_shown P C w image data _ Himg Hok Hscan) as (He & Hd & _).
    split; [exact He | exact Hd].
  - right. left. exists pre, output, post, entry, cls, c.
    split; [exact Heq|]. split; [exact Hpre|]. split; [exact Hlead|].
    split; [exact Hq|].
    rewrite Heq, (search_first P pre output post entry (cls, c) Hpre Hlead Hq) in Hscan.
    destruct (success_shown P C w image data cls c Himg Hok Hscan) as (He & Hd & _).
    split; assumption.
Qed.

Lemma successful_response_outcome_witness :
  let P := stub_for (response_of null_then_newcastle) in
  let s := after_detect P ok_server (with_image a_file) in
  (Forall (passed_over P) null_then_newcastle /\ shows s NoPredictionFound) \/
  (exists pre output post entry cls c,
     null_then_newcastle = (pre ++ output :: post)%list /\ Forall (passed_over P) pre /\
     leading_entry output = Some entry /\ qualifies P entry = Some (cls, c) /\
     shows s (Success cls (confidence_text P c))) \/
  (exists pre output post,
     null_then_newcastle = (pre ++ output :: post)%list /\ Forall (passed_over P) pre /\
     raises output = true /\
     shows s (RequestFailed (raise_message P output)) /\
     detectionResult s = "").
Proof.
  apply (successful_response_outcome
           (stub_for (response_of null_then_newcastle)) ok_server
           (with_image a_file) a_file (response_of null_then_newcastle)
           null_then_newcastle).
  - reflexivity.
  - apply ok_server_succeeds.
  - reflexivity.
Defined.

(** X12. A success body that parses to [null] ends in [RequestFailed]
    with the [TypeError] of reading [outputs] of [null]; no detection is
    shown and the diagnostic slot holds the printed [null]. *)
Theorem null_body_is_a_failure
    (P : Platform) (C : Collaborators) (w : World) (image : File) :
  selectedImage (ui w) = Some image ->
  succeeds_with P C image JNull ->
  shows (after_detect P C w) (RequestFailed (cannot_read P "outputs")) /\
  detectionResult (after_detect P C w) = "" /\
  rawApiResponse (after_detect P C w) = JSON_stringify P JNull 2.
Proof.
  intros Himg Hok.
  exact (search_failure_shown P C w image JNull
           (ErrorObject TypeError (cannot_read P "outputs")) Himg Hok eq_refl).
Qed.

Lemma null_body_is_a_failure_witness :
  let P := stub_for JNull in
  let s := after_detect P ok_server (with_image a_file) in
  shows s (RequestFailed (cannot_read P "outputs")) /\
  detectionResult s = "" /\
  rawApiResponse s = JSON_stringify P JNull 2.
Proof.
  apply (null_body_is_a_failure (stub_for JNull) ok_server (with_image a_file) a_file).
  - reflexivity.
  - apply ok_server_succeeds.
Defined.

(** ** Changing the image *)

(** X13. Choosing a file, or clearing the choice, wipes what the last
    detection left, from any state: no error, result or raw response is
    rendered afterwards, nothing is read or sent, and the loading flag is
    untouched. After clearing the choice, the button is disabled and an
    invocation shows only the message asking to select an image. *)
Theorem image_change_wipes_outcome
    (P : Platform) (C : Collaborators) (w : World) (file : option File) :
  let w1 := snd (handleImageChange P file w) in
  selectedImage (ui w1) = file /\
  error_panel (render (ui w1)) = None /\
  result_panel (render (ui w1)) = None /\
  raw_panel (render (ui w1)) = None /\
  trace w1 = trace w /\
  isLoading (ui w1) = isLoading (ui w) /\
  (file = None ->
   detect_disabled (render (ui w1)) = true /\
   preview (render (ui w1)) = None /\
   error_panel (render (after_detect P C w1)) = Some select_image_message /\
   result_panel (render (after_detect P C w1)) = None /\
   raw_panel (render (after_detect P C w1)) = None /\
   trace (snd (handleDetectDisease P C w1)) = trace w).
Proof.
  destruct file as [f|]; cbn.
  - repeat split; discriminate.
  - repeat split; apply orb_true_r.
Qed.

(** ** The webcam switch *)

(** X14. After any sequence of toggles and rejected camera requests,
    an error message is only ever present while the webcam is switched
    off, and it is the "Cannot access webcam" message; so exactly one of
    these holds: the webcam is on with no overlay, the placeholder is
    shown, or the error overlay is shown. Toggling clears the error, and
    toggling twice restores the switch. *)
Theorem webcam_overlays (s : Webcam) :
  webcam_reachable s ->
  (webcamError s = "" \/
   (webcamError s = webcam_error_message /\ webcamActive s = false)) /\
  ((webcamActive s = true /\ placeholder_overlay s = false /\ error_overlay s = None) \/
   (webcamActive s = false /\ placeholder_overlay s = true /\ error_overlay s = None) \/
   (webcamActive s = false /\ placeholder_overlay s = false /\
    error_overlay s = Some webcam_error_message)) /\
  webcamError (toggleWebcam s) = "" /\
  webcamActive (toggleWebcam (toggleWebcam s)) = webcamActive s.
Proof.
  intros Hs.
  assert (Hinv : webcamError s = "" \/
                 (webcamError s = webcam_error_message /\ webcamActive s = false)).
  { induction Hs as [|s _ _|s _ _].
    - left. reflexivity.
    - left. reflexivity.
    - right. split; reflexivity. }
  split; [exact Hinv|]. split; [|split; [reflexivity | apply negb_involutive]].
  unfold placeholder_overlay, error_overlay.
  destruct Hinv as [He|[He Ha]]; rewrite He.
  - destruct (webcamActive s); [left | right; left]; repeat split.
  - rewrite Ha. right. right. repeat split.
Qed.

Lemma webcam_overlays_witness :
  let s := webcam_rejected (toggleWebcam initial_webcam) in
  (webcamError s = "" \/
   (webcamError s = webcam_error_message /\ webcamActive s = false)) /\
  ((webcamActive s = true /\ placeholder_overlay s = false /\ error_overlay s = None) \/
   (webcamActive s = false /\ placeholder_overlay s = true /\ error_overlay s = None) \/
   (webcamActive s = false /\ placeholder_overlay s = false /\
    error_overlay s = Some webcam_error_message)) /\
  webcamError (toggleWebcam s) = "" /\
  webcamActive (toggleWebcam (toggleWebcam s)) = webcamActive s.
Proof.
  apply (webcam_overlays (webcam_rejected (toggleWebcam initial_webcam))).
  apply webcam_reject, webcam_toggle, webcam_initial.
Defined.
